(** * Mermaid renderer plugin: a shallow embedding and its properties

    The plugin exists in two revisions in this repository:
    [src/src/main.ts] and the unnamed [src/unnamed/part_000].  Both define
    the class [MermaidRenderer] with the methods [initializeMermaid],
    [renderMermaid], [addExportFunctionality], [exportAsSVG] and
    [exportAsPNG].  The two revisions of the export methods differ only in
    console logging, which is not modelled; the revisions of the other
    methods are embedded separately in the modules [main_ts] and
    [part_000].  The export menu ([showExportMenu]) only decides which
    export method a click reaches and is left out.

    Everything the plugin does not implement itself (the mermaid library,
    the DOM parser and serializer, the canvas rasterizer, the vault and the
    clock) is a field of the record [Env]; the theorems quantify over it. *)

From Stdlib Require Import List NArith ZArith Bool Lia Ascii String.
From Stdlib Require Import DecimalPos DecimalN.
Import ListNotations.


(* ================================================================== *)
(** ** JavaScript strings *)

(** A JavaScript string is a sequence of UTF-16 code units. *)
Module Js.

Definition jsstring := list N.

(** An ASCII literal as code units. *)
Definition lit (s : string) : jsstring :=
  List.map N_of_ascii (list_ascii_of_string s).

Definition dquote : jsstring := [34%N].
Definition newline : jsstring := [10%N].

Fixpoint str_eqb (a b : jsstring) : bool :=
  match a, b with
  | [], [] => true
  | x :: a', y :: b' => N.eqb x y && str_eqb a' b'
  | _, _ => false
  end.

(** ECMAScript [WhiteSpace] and [LineTerminator] code points (they are all
    in the basic plane): the characters [String.prototype.trim] strips and
    [parseInt] skips. *)
Definition isWhiteSpace (c : N) : bool :=
  (c =? 9)%N || (c =? 10)%N || (c =? 11)%N || (c =? 12)%N || (c =? 13)%N
  || (c =? 32)%N || (c =? 160)%N || (c =? 5760)%N
  || ((8192 <=? c)%N && (c <=? 8202)%N)
  || (c =? 8232)%N || (c =? 8233)%N || (c =? 8239)%N || (c =? 8287)%N
  || (c =? 12288)%N || (c =? 65279)%N.

Fixpoint trimStart (s : jsstring) : jsstring :=
  match s with
  | c :: s' => if isWhiteSpace c then trimStart s' else s
  | [] => []
  end.

Definition trimEnd (s : jsstring) : jsstring := rev (trimStart (rev s)).

(** [String.prototype.trim] *)
Definition trim (s : jsstring) : jsstring := trimEnd (trimStart s).

(** Truthiness of a string: only the empty string is falsy. *)
Definition truthy (s : jsstring) : bool :=
  match s with [] => false | _ => true end.

(** [a || b] on strings *)
Definition or_str (a b : jsstring) : jsstring := if truthy a then a else b.

Fixpoint startsWith (pat s : jsstring) : bool :=
  match pat, s with
  | [], _ => true
  | p :: pat', c :: s' => N.eqb p c && startsWith pat' s'
  | _ :: _, [] => false
  end.

(** [s.includes(pat)] *)
Fixpoint includes (pat s : jsstring) : bool :=
  startsWith pat s || match s with [] => false | _ :: s' => includes pat s' end.

(** [s.lastIndexOf(pat)], with [i] the index of the head of [s];
    [-1] when [pat] does not occur. *)
Fixpoint lastIndexOf_from (i : Z) (pat s : jsstring) : Z :=
  match s with
  | [] => if startsWith pat [] then i else (-1)%Z
  | _ :: s' =>
      let r := lastIndexOf_from (i + 1) pat s' in
      if (0 <=? r)%Z then r else if startsWith pat s then i else (-1)%Z
  end.

Definition lastIndexOf (pat s : jsstring) : Z := lastIndexOf_from 0 pat s.

(** [s.substring(a, b)]: both indices are clamped to [0, length] and
    swapped when out of order. *)
Definition substring (a b : Z) (s : jsstring) : jsstring :=
  let len := Z.of_nat (List.length s) in
  let clamp := fun i => Z.min (Z.max i 0) len in
  let lo := Z.min (clamp a) (clamp b) in
  let hi := Z.max (clamp a) (clamp b) in
  firstn (Z.to_nat (hi - lo)) (skipn (Z.to_nat lo) s).

(** Decimal rendering of a non-negative integer, as a template literal
    renders it (exact below 10^21, far above any clock value). *)
Fixpoint digits_of_uint (u : Decimal.uint) : jsstring :=
  match u with
  | Decimal.Nil => []
  | Decimal.D0 u' => 48%N :: digits_of_uint u'
  | Decimal.D1 u' => 49%N :: digits_of_uint u'
  | Decimal.D2 u' => 50%N :: digits_of_uint u'
  | Decimal.D3 u' => 51%N :: digits_of_uint u'
  | Decimal.D4 u' => 52%N :: digits_of_uint u'
  | Decimal.D5 u' => 53%N :: digits_of_uint u'
  | Decimal.D6 u' => 54%N :: digits_of_uint u'
  | Decimal.D7 u' => 55%N :: digits_of_uint u'
  | Decimal.D8 u' => 56%N :: digits_of_uint u'
  | Decimal.D9 u' => 57%N :: digits_of_uint u'
  end.

Definition number_toString (n : N) : jsstring := digits_of_uint (N.to_uint n).

(** The value of a digit in the given radix, if it is one. *)
Definition digit_val (radix c : N) : option N :=
  let v :=
    if (48 <=? c)%N && (c <=? 57)%N then Some (c - 48)%N
    else if (97 <=? c)%N && (c <=? 122)%N then Some (c - 87)%N
    else if (65 <=? c)%N && (c <=? 90)%N then Some (c - 55)%N
    else None in
  match v with
  | Some d => if (d <? radix)%N then Some d else None
  | None => None
  end.

Fixpoint parse_digits (radix acc : N) (seen : bool) (s : jsstring) : option N :=
  match s with
  | c :: s' =>
      match digit_val radix c with
      | Some d => parse_digits radix (acc * radix + d) true s'
      | None => if seen then Some acc else None
      end
  | [] => if seen then Some acc else None
  end.

(** [parseInt(s)] with no radix argument; [None] is [NaN].  Both zeros are
    [Some 0].  Exact for results below 2^53. *)
Definition parseInt (s : jsstring) : option Z :=
  let s1 := trimStart s in
  let '(neg, s2) :=
    match s1 with
    | c :: r => if (c =? 45)%N then (true, r)
                else if (c =? 43)%N then (false, r) else (false, s1)
    | [] => (false, s1)
    end in
  let '(radix, s3) :=
    match s2 with
    | z :: x :: r =>
        if (z =? 48)%N && ((x =? 120)%N || (x =? 88)%N) then (16%N, r)
        else (10%N, s2)
    | _ => (10%N, s2)
    end in
  match parse_digits radix 0 false s3 with
  | Some n => Some (if neg then (- Z.of_N n)%Z else Z.of_N n)
  | None => None
  end.

(** [a || b] on numbers, the left operand possibly [NaN]: zero and [NaN]
    are falsy. *)
Definition or_num (a : option Z) (b : Z) : Z :=
  match a with
  | Some z => if (z =? 0)%Z then b else z
  | None => b
  end.

End Js.
Import Js.

(* ================================================================== *)
(** ** The document tree *)

Module Dom.

(** Event handlers the plugin registers, by what their closure does. *)
Inductive Handler :=
| ShowButton                      (* exportBtn.style.opacity = "1" *)
| HideButton                      (* exportBtn.style.opacity = "0" *)
| OpenExportMenu (diagramId sourcePath : jsstring).
                                  (* this.showExportMenu(container, diagramId, context) *)

Record Props := {
  tagName : jsstring;
  classList : list jsstring;
  textContent : jsstring;
  attributes : list (jsstring * jsstring);
  style : list (jsstring * jsstring);
  listeners : list (jsstring * Handler)
}.

#[local] Set Warnings "-register-all".
Inductive Tree := Elem (p : Props) (kids : list Tree).
#[local] Set Warnings "register-all".

Definition props (t : Tree) : Props := match t with Elem p _ => p end.
Definition children (t : Tree) : list Tree := match t with Elem _ k => k end.

(** A reference to an element: the child indices leading to it from the
    root of the tree held in the state. *)
Definition handle := list nat.

Fixpoint node_at (h : handle) (t : Tree) : option Tree :=
  match h with
  | [] => Some t
  | i :: h' =>
      match nth_error (children t) i with
      | Some k => node_at h' k
      | None => None
      end
  end.

Fixpoint update_nth (i : nat) (f : Tree -> Tree) (l : list Tree) : list Tree :=
  match l, i with
  | [], _ => []
  | x :: l', O => f x :: l'
  | x :: l', S i' => x :: update_nth i' f l'
  end.

(** Mutation of the element a handle refers to; every other handle keeps
    seeing the change, as the tree is shared. *)
Fixpoint update_at (h : handle) (f : Tree -> Tree) (t : Tree) : Tree :=
  match h with
  | [] => f t
  | i :: h' => Elem (props t) (update_nth i (update_at h' f) (children t))
  end.

Definition appendChild (c : Tree) (t : Tree) : Tree :=
  Elem (props t) (children t ++ [c]).

Definition set_children (ks : list Tree) (t : Tree) : Tree := Elem (props t) ks.

Definition map_props (f : Props -> Props) (t : Tree) : Tree :=
  Elem (f (props t)) (children t).

Fixpoint assoc_set (k v : jsstring) (l : list (jsstring * jsstring))
  : list (jsstring * jsstring) :=
  match l with
  | [] => [(k, v)]
  | (k', v') :: l' =>
      if str_eqb k' k then (k, v) :: l' else (k', v') :: assoc_set k v l'
  end.

(** [e.style.k = v] *)
Definition set_style (k v : jsstring) (p : Props) : Props :=
  {| tagName := tagName p; classList := classList p;
     textContent := textContent p; attributes := attributes p;
     style := assoc_set k v (style p); listeners := listeners p |}.

(** [e.style.cssText = ...] replaces the whole inline style. *)
Definition set_cssText (decls : list (jsstring * jsstring)) (p : Props) : Props :=
  {| tagName := tagName p; classList := classList p;
     textContent := textContent p; attributes := attributes p;
     style := decls; listeners := listeners p |}.

Definition setAttribute (k v : jsstring) (p : Props) : Props :=
  {| tagName := tagName p; classList := classList p;
     textContent := textContent p; attributes := assoc_set k v (attributes p);
     style := style p; listeners := listeners p |}.

Definition addEventListener (ev : jsstring) (h : Handler) (p : Props) : Props :=
  {| tagName := tagName p; classList := classList p;
     textContent := textContent p; attributes := attributes p;
     style := style p; listeners := listeners p ++ [(ev, h)] |}.

(** A new element as Obsidian's [createEl(tag, {text, cls})] makes it. *)
Definition new_element (tag text : jsstring) (cls : list jsstring) : Tree :=
  Elem {| tagName := tag; classList := cls; textContent := text;
          attributes := []; style := []; listeners := [] |} [].

Definition has_tag (tag : jsstring) (p : Props) : bool := str_eqb (tagName p) tag.
Definition has_class (c : jsstring) (p : Props) : bool :=
  existsb (str_eqb c) (classList p).

(** First element in document order, the root included, that matches. *)
Fixpoint first_match (sel : Props -> bool) (t : Tree) : option Tree :=
  match t with
  | Elem p kids =>
      if sel p then Some t
      else (fix among (ks : list Tree) : option Tree :=
              match ks with
              | [] => None
              | k :: ks' =>
                  match first_match sel k with
                  | Some r => Some r
                  | None => among ks'
                  end
              end) kids
  end.

Fixpoint first_among (sel : Props -> bool) (ks : list Tree) : option Tree :=
  match ks with
  | [] => None
  | k :: ks' =>
      match first_match sel k with
      | Some r => Some r
      | None => first_among sel ks'
      end
  end.

(** [e.querySelector(sel)]: the first matching descendant of [e]. *)
Definition querySelector (sel : Props -> bool) (t : Tree) : option Tree :=
  first_among sel (children t).

(** Mutation of the element [querySelector] returns, when there is one. *)
Fixpoint update_first_match (sel : Props -> bool) (f : Props -> Props) (t : Tree)
  : option Tree :=
  match t with
  | Elem p kids =>
      if sel p then Some (Elem (f p) kids)
      else
        match (fix among (ks : list Tree) : option (list Tree) :=
                 match ks with
                 | [] => None
                 | k :: ks' =>
                     match update_first_match sel f k with
                     | Some k' => Some (k' :: ks')
                     | None =>
                         match among ks' with
                         | Some r => Some (k :: r)
                         | None => None
                         end
                     end
                 end) kids with
        | Some kids' => Some (Elem p kids')
        | None => None
        end
  end.

Fixpoint update_first_among (sel : Props -> bool) (f : Props -> Props)
  (ks : list Tree) : option (list Tree) :=
  match ks with
  | [] => None
  | k :: ks' =>
      match update_first_match sel f k with
      | Some k' => Some (k' :: ks')
      | None =>
          match update_first_among sel f ks' with
          | Some r => Some (k :: r)
          | None => None
          end
      end
  end.

Definition update_queried (sel : Props -> bool) (f : Props -> Props) (t : Tree)
  : Tree :=
  match update_first_among sel f (children t) with
  | Some ks => Elem (props t) ks
  | None => t
  end.

(** [node.cloneNode(true)]: a detached deep copy; listeners added with
    [addEventListener] are not copied. *)
Fixpoint cloneNode (t : Tree) : Tree :=
  match t with
  | Elem p kids =>
      Elem {| tagName := tagName p; classList := classList p;
              textContent := textContent p; attributes := attributes p;
              style := style p; listeners := [] |}
           (List.map cloneNode kids)
  end.

End Dom.
Import Dom.

(* ================================================================== *)
(** ** The platform: library, host, canvas *)

(** A thrown value that is an object: an [Error], or any other value on
    which [.message] can be read; [message] is [None] when it has no such
    property.  The values [null] and [undefined], on which reading
    [.message] itself throws a [TypeError], are not in this type: every
    statement below about what is thrown or rejected speaks of objects
    only. *)
Record Thrown := { message : option jsstring }.

(** [new Error(msg)] *)
Definition Error (msg : jsstring) : Thrown := {| message := Some msg |}.

(** [error.message] where a string is expected: [undefined] prints as
    such in a concatenation and is falsy under [||]. *)
Definition message_concat (e : Thrown) : jsstring :=
  match message e with Some m => m | None => lit "undefined" end.
Definition message_or (e : Thrown) (dflt : jsstring) : jsstring :=
  match message e with Some m => or_str m dflt | None => dflt end.

(** The options record passed to [mermaid.initialize]. *)
Record MermaidConfig := {
  startOnLoad : bool;
  theme : option jsstring;
  securityLevel : jsstring;
  fontFamily : option jsstring;
  flowchart_useMaxWidth : bool;
  flowchart_htmlLabels : bool;
  sequence_useMaxWidth : bool;
  gantt_useMaxWidth : bool
}.

Record Color := { red : N; green : N; blue : N; alpha : N }.
Definition white : Color := {| red := 255; green := 255; blue := 255; alpha := 255 |}.
Definition black : Color := {| red := 0; green := 0; blue := 0; alpha := 255 |}.
Definition transparent : Color := {| red := 0; green := 0; blue := 0; alpha := 0 |}.

(** A pixel grid: a canvas bitmap, or the image a PNG file holds. *)
Record Bitmap := { bwidth : Z; bheight : Z; pixel : Z -> Z -> Color }.

(** Calls that leave the plugin, in the order they are made. *)
Inductive Call :=
| mermaid_initialize (cfg : MermaidConfig)
| mermaid_parse (text : jsstring)
| mermaid_render (id text : jsstring)
| vault_create (path data : jsstring)
| vault_createBinary (path : jsstring) (data : Bitmap)
| Notice (msg : jsstring).

(** The behaviour of everything outside the plugin.  What may change from
    one call to the next depends on the calls made so far. *)
Record Env := {
  (* document.body.classList.contains("theme-dark") *)
  theme_dark : bool;
  (* mermaid.initialize(cfg): returns, or throws *)
  initialize_outcome : list Call -> MermaidConfig -> option Thrown;
  (* await mermaid.parse(text): truthiness of the result, or throws *)
  parse_outcome : list Call -> jsstring -> Thrown + bool;
  (* await mermaid.render(id, text): the svg markup, or throws *)
  render_outcome : list Call -> jsstring -> jsstring -> Thrown + jsstring;
  (* Date.now() *)
  Date_now : list Call -> N;
  (* Math.random().toString(36).substr(2, 9) *)
  random_suffix : list Call -> jsstring;
  (* new DOMParser().parseFromString(s, 'image/svg+xml').documentElement *)
  parseFromString : jsstring -> Tree;
  (* the children an element gets from element.innerHTML = s *)
  innerHTML_parse : jsstring -> list Tree;
  (* new XMLSerializer().serializeToString(node) *)
  serializeToString : Tree -> jsstring;
  (* encodeURIComponent(s): throws URIError on a lone surrogate *)
  encodeURIComponent : jsstring -> Thrown + jsstring;
  (* await this.app.vault.create(path, data) *)
  vault_create_outcome : list Call -> jsstring -> jsstring -> option Thrown;
  (* await this.app.vault.createBinary(path, data) *)
  vault_createBinary_outcome : list Call -> jsstring -> Bitmap -> option Thrown;
  (* canvas.getContext("2d") is not null *)
  has_2d_context : bool;
  (* window.getComputedStyle(e).width and .height *)
  computed_width : Tree -> jsstring;
  computed_height : Tree -> jsstring;
  (* e.clientWidth and e.clientHeight *)
  clientWidth : Tree -> Z;
  clientHeight : Tree -> Z;
  (* img.src = uri: [None] fires onerror; [Some r] fires onload, and
     [r w h x y] is the colour the picture contributes at device pixel
     (x, y) when drawn into a w-by-h device rectangle at the origin *)
  image_decode : jsstring -> option (Z -> Z -> Z -> Z -> Color);
  (* source-over compositing of a translucent source on a backdrop *)
  blend : Color -> Color -> Color;
  (* canvas.toBlob hands a blob (not null) to its callback *)
  toBlob_succeeds : Bitmap -> bool
}.

(** The plugin's field, the tree under the output element, and the calls
    made so far (oldest first). *)
Record World := {
  mermaidInitialized : bool;
  doc : Tree;
  trace : list Call
}.

Definition set_initialized (b : bool) (w : World) : World :=
  {| mermaidInitialized := b; doc := doc w; trace := trace w |}.
Definition set_doc (d : Tree) (w : World) : World :=
  {| mermaidInitialized := mermaidInitialized w; doc := d; trace := trace w |}.
Definition log (c : Call) (w : World) : World :=
  {| mermaidInitialized := mermaidInitialized w; doc := doc w;
     trace := trace w ++ [c] |}.

(** *** Computations that may throw *)

Definition M (A : Type) : Type := World -> (Thrown + A) * World.

Definition ret {A} (a : A) : M A := fun w => (inr a, w).
Definition throw {A} (e : Thrown) : M A := fun w => (inl e, w).
Definition bind {A B} (m : M A) (k : A -> M B) : M B :=
  fun w => match m w with
           | (inr a, w') => k a w'
           | (inl e, w') => (inl e, w')
           end.
(** [try { body } catch (error) { handler }] *)
Definition try_catch {A} (body : M A) (handler : Thrown -> M A) : M A :=
  fun w => match body w with
           | (inr a, w') => (inr a, w')
           | (inl e, w') => handler e w'
           end.

Declare Scope js_scope.
Delimit Scope js_scope with js.
Notation "x <- m ;; k" := (bind m (fun x => k))
  (at level 61, m at next level, right associativity) : js_scope.
Notation "m ;; k" := (bind m (fun _ => k))
  (at level 61, right associativity) : js_scope.
Open Scope js_scope.

Definition get_initialized : M bool := fun w => (inr (mermaidInitialized w), w).
Definition put_initialized (b : bool) : M unit := fun w => (inr tt, set_initialized b w).
Definition get_trace : M (list Call) := fun w => (inr (trace w), w).
Definition modify_doc (f : Tree -> Tree) : M unit :=
  fun w => (inr tt, set_doc (f (doc w)) w).
Definition modify_at (h : handle) (f : Tree -> Tree) : M unit :=
  modify_doc (update_at h f).

(** A call that returns or throws as the environment decides; it is
    recorded either way. *)
Definition call_out {A} (c : Call) (outcome : list Call -> Thrown + A) : M A :=
  fun w => (outcome (trace w), log c w).

Definition unit_outcome (o : option Thrown) : Thrown + unit :=
  match o with Some e => inl e | None => inr tt end.

(** [new Notice(msg)] *)
Definition new_Notice (msg : jsstring) : M unit :=
  fun w => (inr tt, log (Notice msg) w).

(** [parent.createEl(tag, {text, cls})]: the new element is appended to
    [parent] and returned. *)
Definition createEl (parent : handle) (tag text : jsstring) (cls : list jsstring)
  : M handle :=
  fun w =>
    let n := match node_at parent (doc w) with
             | Some t => List.length (children t)
             | None => O
             end in
    (inr (parent ++ [n]),
     set_doc (update_at parent (appendChild (new_element tag text cls)) (doc w)) w).

(** [container.querySelector(sel)] through a handle.  A handle returned by
    [createEl] always refers to an element; for any other list of indices
    nothing is found. *)
Definition query_at (h : handle) (sel : Props -> bool) : M (option Tree) :=
  fun w => (inr match node_at h (doc w) with
                | Some t => querySelector sel t
                | None => None
                end, w).

(** The [MarkdownPostProcessorContext], as far as the plugin reads it. *)
Record Context := { sourcePath : jsstring }.

(** *** The 2D canvas *)

(** The size of the canvas, the scale of the current transform, the fill
    colour and the pixels.  Sizes are kept as assigned; numbers are
    integers well below 2^53, where JavaScript arithmetic is exact. *)
Record Canvas := {
  width : Z;
  height : Z;
  scaleX : Z;
  scaleY : Z;
  fillStyle : Color;
  bitmap : Z -> Z -> Color
}.

(** [document.createElement("canvas")] *)
Definition new_canvas : Canvas :=
  {| width := 300; height := 150; scaleX := 1; scaleY := 1;
     fillStyle := black; bitmap := fun _ _ => transparent |}.

(** [canvas.width = v] and [canvas.height = v]: the assignment also clears
    the bitmap and resets the drawing state. *)
Definition set_width (v : Z) (c : Canvas) : Canvas :=
  {| width := v; height := height c; scaleX := 1; scaleY := 1;
     fillStyle := black; bitmap := fun _ _ => transparent |}.
Definition set_height (v : Z) (c : Canvas) : Canvas :=
  {| width := width c; height := v; scaleX := 1; scaleY := 1;
     fillStyle := black; bitmap := fun _ _ => transparent |}.

(** [ctx.scale(a, b)] *)
Definition ctx_scale (a b : Z) (c : Canvas) : Canvas :=
  {| width := width c; height := height c;
     scaleX := scaleX c * a; scaleY := scaleY c * b;
     fillStyle := fillStyle c; bitmap := bitmap c |}.

(** [ctx.fillStyle = col] *)
Definition set_fillStyle (col : Color) (c : Canvas) : Canvas :=
  {| width := width c; height := height c;
     scaleX := scaleX c; scaleY := scaleY c;
     fillStyle := col; bitmap := bitmap c |}.

(** Source-over: an opaque source replaces the backdrop, a fully
    transparent one leaves it. *)
Definition paint (env : Env) (src dst : Color) : Color :=
  if (alpha src =? 255)%N then src
  else if (alpha src =? 0)%N then dst
  else blend env src dst.

Definition in_rect (x0 y0 w h px py : Z) : bool :=
  ((x0 <=? px) && (px <? x0 + w) && (y0 <=? py) && (py <? y0 + h))%Z.

(** [ctx.fillRect(x, y, w, h)] under the current scale. *)
Definition fillRect (env : Env) (x y w h : Z) (c : Canvas) : Canvas :=
  {| width := width c; height := height c;
     scaleX := scaleX c; scaleY := scaleY c; fillStyle := fillStyle c;
     bitmap := fun px py =>
       if in_rect (x * scaleX c) (y * scaleY c) (w * scaleX c) (h * scaleY c) px py
       then paint env (fillStyle c) (bitmap c px py)
       else bitmap c px py |}.

(** [ctx.drawImage(img, x, y, w, h)] under the current scale. *)
Definition drawImage (env : Env) (img : Z -> Z -> Z -> Z -> Color)
  (x y w h : Z) (c : Canvas) : Canvas :=
  {| width := width c; height := height c;
     scaleX := scaleX c; scaleY := scaleY c; fillStyle := fillStyle c;
     bitmap := fun px py =>
       if in_rect (x * scaleX c) (y * scaleY c) (w * scaleX c) (h * scaleY c) px py
       then paint env (img (w * scaleX c) (h * scaleY c)
                           (px - x * scaleX c) (py - y * scaleY c))%Z
                      (bitmap c px py)
       else bitmap c px py |}.

(** The image [canvas.toBlob(cb, "image/png")] encodes: PNG is lossless. *)
Definition toBlob (c : Canvas) : Bitmap :=
  {| bwidth := width c; bheight := height c; pixel := bitmap c |}.

(** How an [async] function's promise ends. *)
Inductive Settled :=
| Fulfilled
| Rejected (e : Thrown)
| Pending.

(* ================================================================== *)
(** ** Export (both revisions) *)

Module Exporter.

Definition xml_declaration : jsstring :=
  lit "<?xml version=" ++ dquote ++ lit "1.0" ++ dquote
  ++ lit " encoding=" ++ dquote ++ lit "UTF-8" ++ dquote ++ lit "?>".

Definition doctype : jsstring :=
  lit "<!DOCTYPE svg PUBLIC " ++ dquote ++ lit "-//W3C//DTD SVG 1.1//EN" ++ dquote
  ++ lit " " ++ dquote
  ++ lit "http://www.w3.org/Graphics/SVG/1.1/DTD/svg11.dtd" ++ dquote ++ lit ">".

(** [const currentDir]: the path up to its last ['/'] when it includes
    one, the empty string otherwise. *)
Definition currentDir (currentFilePath : jsstring) : jsstring :=
  if includes (lit "/") currentFilePath
  then substring 0 (lastIndexOf (lit "/") currentFilePath) currentFilePath
  else [].

(** [const filePath = currentDir ? `${currentDir}/${fileName}` : fileName] *)
Definition filePath (currentDir fileName : jsstring) : jsstring :=
  if truthy currentDir then currentDir ++ lit "/" ++ fileName else fileName.

Definition find_svg (container : Tree) : M Tree :=
  match querySelector (has_tag (lit "svg")) container with
  | Some svgElement => ret svgElement
  | None => throw (Error (lit "No SVG element found"))
  end.

(** [exportAsSVG(container, diagramId, context)]; [container] is the
    element as the document has it when the menu entry is clicked.  Every
    [await] is inside the [try], so the promise always fulfils. *)
Definition exportAsSVG (env : Env) (container : Tree) (diagramId : jsstring)
  (context : Context) : M unit :=
  try_catch
    (svgElement <- find_svg container ;;
     let clonedSvg := cloneNode svgElement in
     let svgString := serializeToString env clonedSvg in
     let fullSvgString :=
       xml_declaration ++ newline ++ doctype ++ newline ++ svgString in
     let currentFilePath := or_str (sourcePath context) [] in
     let currentDir := currentDir currentFilePath in
     now <- get_trace ;;
     let fileName :=
       lit "mermaid-diagram-" ++ number_toString (Date_now env now) ++ lit ".svg" in
     let filePath := filePath currentDir fileName in
     call_out (vault_create filePath fullSvgString)
              (fun tr => unit_outcome (vault_create_outcome env tr filePath fullSvgString)) ;;
     new_Notice (lit "SVG exported as " ++ fileName))
    (fun error =>
     new_Notice (lit "Failed to export SVG: " ++ message_concat error)).

(** What the statements of [exportAsPNG] before [return new Promise]
    hand to the promise's executor. *)
Record PngJob := {
  job_canvas : Canvas;
  job_width : Z;
  job_height : Z;
  job_dir : jsstring;
  job_uri : jsstring
}.

Definition png_prepare (env : Env) (container : Tree) (context : Context)
  : M PngJob :=
  svgElement <- find_svg container ;;
  let currentFilePath := or_str (sourcePath context) [] in
  let currentDir := currentDir currentFilePath in
  let svgData := serializeToString env svgElement in
  let canvas := new_canvas in
  (if has_2d_context env then ret tt
   else throw (Error (lit "Could not get canvas context"))) ;;
  let width :=
    or_num (Some (or_num (parseInt (computed_width env svgElement))
                         (clientWidth env svgElement))) 800 in
  let height :=
    or_num (Some (or_num (parseInt (computed_height env svgElement))
                         (clientHeight env svgElement))) 600 in
  let scale := 2%Z in
  let canvas := set_width (width * scale) canvas in
  let canvas := set_height (height * scale) canvas in
  let canvas := ctx_scale scale scale canvas in
  encoded <- (fun w => (encodeURIComponent env svgData, w)) ;;
  let svgDataUri := lit "data:image/svg+xml;charset=utf-8," ++ encoded in
  ret {| job_canvas := canvas; job_width := width; job_height := height;
         job_dir := currentDir; job_uri := svgDataUri |}.

(** The promise made by [new Promise((resolve, reject) => ...)]: the image
    either fails to load ([img.onerror]) or loads ([img.onload]).  The
    drawing calls do not throw, so the inner [try] never catches.  The
    [toBlob] callback is an [async] function of its own: when
    [createBinary] throws in it, neither [resolve] nor [reject] runs. *)
Definition png_promise (env : Env) (job : PngJob) : World -> Settled * World :=
  fun w =>
    match image_decode env (job_uri job) with
    | None => (Rejected (Error (lit "Failed to load SVG image")), w)
    | Some img =>
        let canvas := set_fillStyle white (job_canvas job) in
        let canvas := fillRect env 0 0 (job_width job) (job_height job) canvas in
        let canvas := drawImage env img 0 0 (job_width job) (job_height job) canvas in
        let blob := toBlob canvas in
        if negb (toBlob_succeeds env blob)
        then (Rejected (Error (lit "Failed to create PNG blob")), w)
        else
          let fileName :=
            lit "mermaid-diagram-" ++ number_toString (Date_now env (trace w))
            ++ lit ".png" in
          let filePath := filePath (job_dir job) fileName in
          match call_out (vault_createBinary filePath blob)
                  (fun tr => unit_outcome
                               (vault_createBinary_outcome env tr filePath blob)) w with
          | (inl _, w') => (Pending, w')
          | (inr _, w') =>
              (Fulfilled, snd (new_Notice (lit "PNG exported as " ++ fileName) w'))
          end
    end.

(** [exportAsPNG(container, diagramId, context)].  The [try] covers the
    statements up to [return new Promise(...)]; the promise is returned
    without [await], so the function's promise takes its state and the
    [catch] does not see its rejection. *)
Definition exportAsPNG (env : Env) (container : Tree) (diagramId : jsstring)
  (context : Context) : World -> Settled * World :=
  fun w =>
    match png_prepare env container context w with
    | (inr job, w') => png_promise env job w'
    | (inl error, w') =>
        (Fulfilled,
         snd (new_Notice (lit "Failed to export PNG: " ++ message_concat error) w'))
    end.

End Exporter.

(** The button label: U+1F4BE (a surrogate pair) and [" Export"]. *)
Definition export_label : jsstring := [55357%N; 56510%N] ++ lit " Export".

(** [`mermaid-${Date.now()}-${Math.random().toString(36).substr(2, 9)}`] *)
Definition fresh_id (env : Env) (now : list Call) : jsstring :=
  lit "mermaid-" ++ number_toString (Date_now env now) ++ lit "-"
  ++ random_suffix env now.

(** The [catch] block of [renderMermaid], the same in both revisions. *)
Definition show_error (source : jsstring) (el : handle) (error : Thrown) : M unit :=
  errorContainer <- createEl el (lit "div") [] [lit "mermaid-error"] ;;
  _ <- createEl errorContainer (lit "div")
         (lit "Mermaid Error: " ++ message_or error (lit "Unknown error"))
         [lit "mermaid-error-message"] ;;
  pre <- createEl errorContainer (lit "pre") [] [] ;;
  _ <- createEl pre (lit "code") source [lit "language-mermaid"] ;;
  ret tt.

(** The block shown when the library is not ready. *)
Definition show_not_ready (el : handle) : M unit :=
  _ <- createEl el (lit "div") (lit "Failed to initialize Mermaid library")
         [lit "mermaid-error"] ;;
  ret tt.

(** [document.querySelectorAll(sel).forEach(e => e.remove())], as far as
    it reaches below the output element: every matching element leaves
    the tree, with all it contains.  The output element itself is the
    host's. *)
Fixpoint remove_all (sel : Props -> bool) (t : Tree) : Tree :=
  match t with
  | Elem p kids =>
      Elem p ((fix among (ks : list Tree) : list Tree :=
                 match ks with
                 | [] => []
                 | k :: ks' =>
                     if sel (props k) then among ks'
                     else remove_all sel k :: among ks'
                 end) kids)
  end.

Fixpoint remove_all_among (sel : Props -> bool) (ks : list Tree) : list Tree :=
  match ks with
  | [] => []
  | k :: ks' =>
      if sel (props k) then remove_all_among sel ks'
      else remove_all sel k :: remove_all_among sel ks'
  end.

(* ================================================================== *)
(** ** Revision [src/src/main.ts] *)

Module main_ts.

Definition config (env : Env) : MermaidConfig :=
  {| startOnLoad := false;
     theme := Some (if theme_dark env then lit "dark" else lit "default");
     securityLevel := lit "loose";
     fontFamily := Some (lit "var(--font-interface)");
     flowchart_useMaxWidth := true;
     flowchart_htmlLabels := true;
     sequence_useMaxWidth := true;
     gantt_useMaxWidth := true |}.

Definition initializeMermaid (env : Env) : M unit :=
  ready <- get_initialized ;;
  if ready then ret tt
  else
    try_catch
      (call_out (mermaid_initialize (config env))
                (fun tr => unit_outcome (initialize_outcome env tr (config env))) ;;
       put_initialized true)
      (fun error => ret tt).

(** [onload]: initialization, then the registration of [renderMermaid] as
    the handler of [mermaidjs] blocks. *)
Definition onload (env : Env) : M unit := initializeMermaid env.

Definition button_css : list (jsstring * jsstring) :=
  [ (lit "position", lit "absolute");
    (lit "top", lit "5px");
    (lit "right", lit "5px");
    (lit "opacity", lit "0");
    (lit "transition", lit "opacity 0.2s");
    (lit "background", lit "var(--background-primary)");
    (lit "border", lit "1px solid var(--background-modifier-border)");
    (lit "border-radius", lit "4px");
    (lit "padding", lit "2px 6px");
    (lit "font-size", lit "12px");
    (lit "cursor", lit "pointer") ].

Definition addExportFunctionality (container : handle) (diagramId : jsstring)
  (context : Context) : M unit :=
  exportBtn <- createEl container (lit "button") export_label
                 [lit "mermaid-export-btn"] ;;
  modify_at exportBtn (map_props (set_cssText button_css)) ;;
  modify_at container (map_props (set_style (lit "position") (lit "relative"))) ;;
  modify_at container (map_props (addEventListener (lit "mouseenter") ShowButton)) ;;
  modify_at container (map_props (addEventListener (lit "mouseleave") HideButton)) ;;
  modify_at exportBtn
    (map_props (addEventListener (lit "click")
                  (OpenExportMenu diagramId (sourcePath context)))).

(** [svgElement.style.maxWidth = "100%"; svgElement.style.height = "auto"] *)
Definition responsive (p : Props) : Props :=
  set_style (lit "height") (lit "auto")
    (set_style (lit "max-width") (lit "100%") p).

(** The body of the [try] in [renderMermaid]. *)
Definition render_try (env : Env) (source : jsstring) (el : handle)
  (ctx : Context) : M unit :=
  now <- get_trace ;;
  let id := fresh_id env now in
  container <- createEl el (lit "div") [] [lit "mermaid-container"] ;;
  let cleanSource := trim source in
  (if negb (truthy cleanSource)
   then throw (Error (lit "Empty Mermaid diagram")) else ret tt) ;;
  parseResult <- call_out (mermaid_parse cleanSource)
                   (fun tr => parse_outcome env tr cleanSource) ;;
  (if negb parseResult
   then throw (Error (lit "Invalid Mermaid syntax")) else ret tt) ;;
  svg <- call_out (mermaid_render id cleanSource)
           (fun tr => render_outcome env tr id cleanSource) ;;
  modify_at container (set_children (innerHTML_parse env svg)) ;;
  modify_at container (map_props (set_style (lit "text-align") (lit "center"))) ;;
  modify_at container (map_props (set_style (lit "margin") (lit "1em 0"))) ;;
  modify_at container (update_queried (has_tag (lit "svg")) responsive) ;;
  addExportFunctionality container id ctx.

Definition renderMermaid (env : Env) (source : jsstring) (el : handle)
  (ctx : Context) : M unit :=
  ready <- get_initialized ;;
  (if negb ready then initializeMermaid env else ret tt) ;;
  ready <- get_initialized ;;
  if negb ready then show_not_ready el
  else try_catch (render_try env source el ctx) (show_error source el).

(** [onunload] only writes to the console. *)
Definition onunload : M unit := ret tt.

End main_ts.

(* ================================================================== *)
(** ** Revision [src/unnamed/part_000] *)

Module part_000.

Definition config : MermaidConfig :=
  {| startOnLoad := false;
     theme := None;
     securityLevel := lit "loose";
     fontFamily := None;
     flowchart_useMaxWidth := true;
     flowchart_htmlLabels := true;
     sequence_useMaxWidth := true;
     gantt_useMaxWidth := true |}.

Definition initializeMermaid (env : Env) : M unit :=
  ready <- get_initialized ;;
  if ready then ret tt
  else
    try_catch
      (call_out (mermaid_initialize config)
                (fun tr => unit_outcome (initialize_outcome env tr config)) ;;
       put_initialized true)
      (fun error => ret tt).

(** [onload]: initialization, then the registration of [renderMermaid] as
    the handler of [mermaidjs] blocks. *)
Definition onload (env : Env) : M unit := initializeMermaid env.

Definition addExportFunctionality (container : handle) (diagramId : jsstring)
  (context : Context) : M unit :=
  existing <- query_at container (has_class (lit "mermaid-export-btn")) ;;
  match existing with
  | Some _ => ret tt
  | None =>
      exportBtn <- createEl container (lit "button") export_label
                     [lit "mermaid-export-btn"] ;;
      modify_at exportBtn
        (map_props (setAttribute (lit "title") (lit "Export diagram"))) ;;
      modify_at exportBtn
        (map_props (addEventListener (lit "click")
                      (OpenExportMenu diagramId (sourcePath context))))
  end.

(** The body of the [try] in [renderMermaid].  [document.importNode(e, true)]
    copies a tree that carries no listeners, so the copy equals it. *)
Definition render_try (env : Env) (source : jsstring) (el : handle)
  (ctx : Context) : M unit :=
  now <- get_trace ;;
  let id := fresh_id env now in
  container <- createEl el (lit "div") [] [lit "mermaid-container"] ;;
  let cleanSource := trim source in
  (if negb (truthy cleanSource)
   then throw (Error (lit "Empty Mermaid diagram")) else ret tt) ;;
  parseResult <- call_out (mermaid_parse cleanSource)
                   (fun tr => parse_outcome env tr cleanSource) ;;
  (if negb parseResult
   then throw (Error (lit "Invalid Mermaid syntax")) else ret tt) ;;
  svg <- call_out (mermaid_render id cleanSource)
           (fun tr => render_outcome env tr id cleanSource) ;;
  let svgElement := parseFromString env svg in
  (if has_tag (lit "svg") (props svgElement)
   then
     let importedSvg := svgElement in
     modify_at container (appendChild importedSvg)
   else throw (Error (lit "Failed to render SVG element"))) ;;
  addExportFunctionality container id ctx.

Definition renderMermaid (env : Env) (source : jsstring) (el : handle)
  (ctx : Context) : M unit :=
  ready <- get_initialized ;;
  (if negb ready then initializeMermaid env else ret tt) ;;
  ready <- get_initialized ;;
  if negb ready then show_not_ready el
  else try_catch (render_try env source el ctx) (show_error source el).

(** [onunload]: the flag is cleared, then the export menus and the export
    buttons are removed from the document. *)
Definition onunload : M unit :=
  put_initialized false ;;
  modify_doc (remove_all (has_class (lit "mermaid-export-menu"))) ;;
  modify_doc (remove_all (has_class (lit "mermaid-export-btn"))).

End part_000.

(* ================================================================== *)
(** ** Both revisions at once *)

Inductive Revision := MainTs | Part000.

Definition config_of (rev : Revision) (env : Env) : MermaidConfig :=
  match rev with
  | MainTs => main_ts.config env
  | Part000 => part_000.config
  end.

Definition initializeMermaid_of (rev : Revision) : Env -> M unit :=
  match rev with
  | MainTs => main_ts.initializeMermaid
  | Part000 => part_000.initializeMermaid
  end.

Definition onload_of (rev : Revision) : Env -> M unit :=
  match rev with
  | MainTs => main_ts.onload
  | Part000 => part_000.onload
  end.

Definition render_try_of (rev : Revision)
  : Env -> jsstring -> handle -> Context -> M unit :=
  match rev with
  | MainTs => main_ts.render_try
  | Part000 => part_000.render_try
  end.

Definition renderMermaid_of (rev : Revision)
  : Env -> jsstring -> handle -> Context -> M unit :=
  match rev with
  | MainTs => main_ts.renderMermaid
  | Part000 => part_000.renderMermaid
  end.

(** The output element the host hands to the handler is the root of the
    tree in the state. *)
Definition el : handle := [].

(* ================================================================== *)
(** ** Vocabulary of the properties *)

(** The element [show_not_ready] appends. *)
Definition not_ready_block : Tree :=
  new_element (lit "div") (lit "Failed to initialize Mermaid library")
    [lit "mermaid-error"].

(** The element [createEl] makes for the diagram, before anything is put
    into it. *)
Definition empty_container : Tree :=
  new_element (lit "div") [] [lit "mermaid-container"].

(** The element the [catch] block of [renderMermaid] builds. *)
Definition error_block (source : jsstring) (error : Thrown) : Tree :=
  Elem (props (new_element (lit "div") [] [lit "mermaid-error"]))
    [ new_element (lit "div")
        (lit "Mermaid Error: " ++ message_or error (lit "Unknown error"))
        [lit "mermaid-error-message"];
      Elem (props (new_element (lit "pre") [] []))
        [ new_element (lit "code") source [lit "language-mermaid"] ] ].

Definition is_error_block (t : Tree) : bool :=
  has_class (lit "mermaid-error") (props t).

Definition is_mermaid_render (c : Call) : bool :=
  match c with mermaid_render _ _ => true | _ => false end.

Definition is_mermaid_initialize (c : Call) : bool :=
  match c with mermaid_initialize _ => true | _ => false end.

(** Error blocks directly under an element. *)
Definition error_blocks (t : Tree) : nat :=
  List.length (filter is_error_block (children t)).

(** Visual fragments below an element: the [svg] elements that are not
    inside another [svg]. *)
Fixpoint svg_roots_in (t : Tree) : nat :=
  match t with
  | Elem p kids =>
      if has_tag (lit "svg") p then 1%nat
      else (fix sum (ks : list Tree) : nat :=
              match ks with
              | [] => O
              | k :: ks' => (svg_roots_in k + sum ks')%nat
              end) kids
  end.

Fixpoint svg_roots_among (ks : list Tree) : nat :=
  match ks with
  | [] => O
  | k :: ks' => (svg_roots_in k + svg_roots_among ks')%nat
  end.

Definition svg_roots (t : Tree) : nat := svg_roots_among (children t).

(** The markup [mermaid.render] returned yields one [svg] root: through
    [innerHTML] in [main.ts], through the XML parser in [part_000]. *)
Definition single_svg (rev : Revision) (env : Env) (markup : jsstring) : bool :=
  match rev with
  | MainTs =>
      match innerHTML_parse env markup with
      | [t] => has_tag (lit "svg") (props t)
      | _ => false
      end
  | Part000 => has_tag (lit "svg") (props (parseFromString env markup))
  end.

(** The destination as the specification words it: the part of the
    document path before its last ['/'], then ['/'], then the file name;
    the file name alone when the path has no ['/']. *)
Definition spec_destination (documentPath fileName : jsstring) : jsstring :=
  if includes (lit "/") documentPath
  then substring 0 (lastIndexOf (lit "/") documentPath) documentPath
       ++ lit "/" ++ fileName
  else fileName.

(** A directory joined with a file name; an empty directory adds nothing. *)
Definition join (dir fileName : jsstring) : jsstring :=
  match dir with
  | [] => fileName
  | _ :: _ => dir ++ lit "/" ++ fileName
  end.

(** [dir] is what precedes the last ['/'] of the path (nothing when the
    path has none). *)
Inductive directory_of : jsstring -> jsstring -> Prop :=
| dir_root : forall p, includes (lit "/") p = false -> directory_of p []
| dir_nested : forall d f, includes (lit "/") f = false ->
    directory_of (d ++ lit "/" ++ f) d.

(** The size [exportAsPNG] settles on for one axis. *)
Definition chosen_size (computed : jsstring) (client dflt : Z) : Z :=
  or_num (Some (or_num (parseInt computed) client)) dflt.

Definition svg_file_name (env : Env) (w : World) : jsstring :=
  lit "mermaid-diagram-" ++ number_toString (Date_now env (trace w)) ++ lit ".svg".
Definition png_file_name (env : Env) (w : World) : jsstring :=
  lit "mermaid-diagram-" ++ number_toString (Date_now env (trace w)) ++ lit ".png".

(** [n] calls of [initializeMermaid] in sequence. *)
Fixpoint repeat_initialize (rev : Revision) (env : Env) (n : nat) (w : World)
  : World :=
  match n with
  | O => w
  | S n' => repeat_initialize rev env n' (snd (initializeMermaid_of rev env w))
  end.

Definition initialize_calls (w : World) : nat :=
  List.length (filter is_mermaid_initialize (trace w)).

(** The text an error block shows as the source, and as the message. *)
Definition shown_source (blk : Tree) : option jsstring :=
  match children blk with
  | [_; Elem _ [code]] => Some (textContent (props code))
  | _ => None
  end.

Definition shown_message (blk : Tree) : option jsstring :=
  match children blk with
  | msg :: _ => Some (textContent (props msg))
  | [] => None
  end.

(** A computation that leaves the plugin's flag as it finds it. *)
Definition keeps_flag {A : Type} (m : M A) : Prop :=
  forall w r w', m w = (r, w') -> mermaidInitialized w' = mermaidInitialized w.

(** After a load during which initialization failed, a render attempt
    that attaches a diagram and no message. *)
Definition recovers_after_failed_load (rev : Revision) (env : Env)
  (source : jsstring) (ctx : Context) (w : World) : Prop :=
  let loaded := snd (onload_of rev env w) in
  let after := snd (renderMermaid_of rev env source el ctx loaded) in
  mermaidInitialized loaded = false
  /\ mermaidInitialized after = true
  /\ existsb is_mermaid_render (trace after) = true
  /\ svg_roots (doc after) = 1%nat
  /\ error_blocks (doc after) = 0%nat
  /\ doc after <> appendChild not_ready_block (doc loaded).

(** The handler's promise for a valid text, as the specification words
    it: one more visual under the output element, no more error blocks. *)
Definition one_visual_no_error (before after : Tree) : Prop :=
  svg_roots after = S (svg_roots before)
  /\ error_blocks after = error_blocks before.

(** The messages shown to the user, and the images written, in a trace. *)
Fixpoint notices (tr : list Call) : list jsstring :=
  match tr with
  | [] => []
  | Notice msg :: tr' => msg :: notices tr'
  | _ :: tr' => notices tr'
  end.

Fixpoint written_images (tr : list Call) : list Bitmap :=
  match tr with
  | [] => []
  | vault_createBinary _ data :: tr' => data :: written_images tr'
  | _ :: tr' => written_images tr'
  end.

Fixpoint written_paths (tr : list Call) : list jsstring :=
  match tr with
  | [] => []
  | vault_create path _ :: tr' => path :: written_paths tr'
  | vault_createBinary path _ :: tr' => path :: written_paths tr'
  | _ :: tr' => written_paths tr'
  end.

(** The text of an SVG file for a given visual. *)
Definition svg_document (env : Env) (svgElement : Tree) : jsstring :=
  Exporter.xml_declaration ++ newline ++ Exporter.doctype ++ newline
  ++ serializeToString env (cloneNode svgElement).

(** The address [exportAsPNG] gives the image element. *)
Definition svg_data_uri (encoded : jsstring) : jsstring :=
  lit "data:image/svg+xml;charset=utf-8," ++ encoded.

(** *** Further vocabulary *)

Definition onunload_of (rev : Revision) : M unit :=
  match rev with
  | MainTs => main_ts.onunload
  | Part000 => part_000.onunload
  end.

Definition addExportFunctionality_of (rev : Revision)
  : handle -> jsstring -> Context -> M unit :=
  match rev with
  | MainTs => main_ts.addExportFunctionality
  | Part000 => part_000.addExportFunctionality
  end.

(** The handler run on one block after another, all under the same output
    element. *)
Fixpoint render_each (rev : Revision) (env : Env)
  (blocks : list (jsstring * Context)) (w : World) : World :=
  match blocks with
  | [] => w
  | (source, ctx) :: rest =>
      render_each rev env rest (snd (renderMermaid_of rev env source el ctx w))
  end.

Definition is_export_button (p : Props) : bool :=
  has_class (lit "mermaid-export-btn") p.
Definition is_export_menu (p : Props) : bool :=
  has_class (lit "mermaid-export-menu") p.

(** Elements below [t], at any depth, that match. *)
Fixpoint count_in (sel : Props -> bool) (t : Tree) : nat :=
  match t with
  | Elem p kids =>
      ((if sel p then 1 else 0)
       + (fix sum (ks : list Tree) : nat :=
            match ks with
            | [] => O
            | k :: ks' => (count_in sel k + sum ks')%nat
            end) kids)%nat
  end.

Fixpoint count_among (sel : Props -> bool) (ks : list Tree) : nat :=
  match ks with
  | [] => O
  | k :: ks' => (count_in sel k + count_among sel ks')%nat
  end.

Definition count_below (sel : Props -> bool) (t : Tree) : nat :=
  count_among sel (children t).

Definition is_parse_of (text : jsstring) (c : Call) : bool :=
  match c with mermaid_parse t => str_eqb t text | _ => false end.

Definition is_library_call (c : Call) : bool :=
  match c with
  | mermaid_initialize _ | mermaid_parse _ | mermaid_render _ _ => true
  | _ => false
  end.

(* ================================================================== *)
(** ** Concrete environments *)

Module Demo.

Definition markup : jsstring := lit "<svg></svg>".
Definition svg_tree : Tree := new_element (lit "svg") [] [].
Definition parsererror_tree : Tree := new_element (lit "parsererror") [] [].

(** A container as [renderMermaid] of [part_000] leaves it. *)
Definition rendered_container : Tree :=
  Elem (props empty_container)
    [svg_tree; new_element (lit "button") export_label [lit "mermaid-export-btn"]].

Fixpoint serialize (t : Tree) : jsstring :=
  match t with
  | Elem p kids =>
      lit "<" ++ tagName p ++ lit ">" ++ textContent p
      ++ List.concat (List.map serialize kids)
      ++ lit "</" ++ tagName p ++ lit ">"
  end.

Definition boom : Thrown := Error (lit "boom").

(** An environment with a few switches: how many calls of
    [mermaid.initialize] throw before one returns; whether
    [mermaid.parse] accepts; the markup [mermaid.render] returns; whether
    the image loads; whether the binary write succeeds; the computed size
    strings. *)
Definition env_with (init_failures : nat) (syntax_ok : bool)
  (rendered : jsstring) (loads writes : bool) (cw ch : jsstring) : Env :=
  {| theme_dark := false;
     initialize_outcome := fun tr _ =>
       if Nat.ltb (List.length (filter is_mermaid_initialize tr)) init_failures
       then Some boom else None;
     parse_outcome := fun _ _ => inr syntax_ok;
     render_outcome := fun _ _ _ => inr rendered;
     Date_now := fun tr => (1700000000000 + N.of_nat (List.length tr))%N;
     random_suffix := fun _ => lit "k3j9x0q1z";
     parseFromString := fun s =>
       if str_eqb s markup then svg_tree else parsererror_tree;
     innerHTML_parse := fun s =>
       if str_eqb s markup then [svg_tree] else [new_element (lit "p") [] []];
     serializeToString := serialize;
     encodeURIComponent := fun s => inr s;
     vault_create_outcome := fun _ _ _ => None;
     vault_createBinary_outcome := fun _ _ _ =>
       if writes then None else Some boom;
     has_2d_context := true;
     computed_width := fun _ => cw;
     computed_height := fun _ => ch;
     clientWidth := fun _ => 0%Z;
     clientHeight := fun _ => 0%Z;
     image_decode := fun _ =>
       if loads then Some (fun _ _ _ _ => transparent) else None;
     blend := fun src _ => src;
     toBlob_succeeds := fun _ => true |}.

Definition env_ok : Env :=
  env_with 0 true markup true true (lit "400px") (lit "300px").

(** [mermaid.parse] rejects every text. *)
Definition env_rejecting : Env :=
  env_with 0 false markup true true (lit "400px") (lit "300px").
(** The first call of [mermaid.initialize] throws, the next returns. *)
Definition env_flaky : Env :=
  env_with 1 true markup true true (lit "400px") (lit "300px").
(** [mermaid.render] returns markup that has no [svg] root. *)
Definition env_bad_markup : Env :=
  env_with 0 true (lit "<p>") true true (lit "400px") (lit "300px").
(** The image never loads. *)
Definition env_no_image : Env :=
  env_with 0 true markup false true (lit "400px") (lit "300px").
(** The vault refuses the binary write. *)
Definition env_no_write : Env :=
  env_with 0 true markup true false (lit "400px") (lit "300px").
(** The visual is laid out with no extent. *)
Definition env_zero_size : Env :=
  env_with 0 true markup true true (lit "0px") (lit "0px").

Definition good_source : jsstring := lit "graph TD; A-->B".
Definition bad_source : jsstring := lit "  grph TD; A--B  ".

Definition output_element : Tree := new_element (lit "div") [] [].

Definition fresh : World :=
  {| mermaidInitialized := false; doc := output_element; trace := [] |}.
Definition ready : World :=
  {| mermaidInitialized := true; doc := output_element; trace := [] |}.

Definition note_ctx : Context := {| sourcePath := lit "notes/flow.md" |}.
(** A document whose path has its only ['/'] in front. *)
Definition slash_ctx : Context := {| sourcePath := lit "/note.md" |}.
Definition diagram_id : jsstring := lit "mermaid-1700000000000-k3j9x0q1z".

End Demo.

(* ================================================================== *)
(** * Properties *)

Arguments lit : simpl never.

(** ** The string functions on examples *)

Example trim_strips_both_ends : trim (lit "  graph TD  ") = lit "graph TD".
Proof. reflexivity. Qed.
Example trim_strips_unicode_space : trim [8195%N; 65%N; 12288%N] = [65%N].
Proof. reflexivity. Qed.
Example parseInt_of_pixels : parseInt (lit "412.5px") = Some 412%Z.
Proof. reflexivity. Qed.
Example parseInt_of_auto : parseInt (lit "auto") = None.
Proof. reflexivity. Qed.
Example parseInt_of_hex : parseInt (lit " -0x1f") = Some (-31)%Z.
Proof. reflexivity. Qed.
Example lastIndexOf_of_nested : lastIndexOf (lit "/") (lit "a/b/c.md") = 3%Z.
Proof. reflexivity. Qed.
Example lastIndexOf_of_flat : lastIndexOf (lit "/") (lit "c.md") = (-1)%Z.
Proof. reflexivity. Qed.
Example substring_of_nested : substring 0 3 (lit "a/b/c.md") = lit "a/b".
Proof. reflexivity. Qed.
Example number_toString_of_clock :
  number_toString 1700000000000 = lit "1700000000000".
Proof. reflexivity. Qed.
Example currentDir_of_nested : Exporter.currentDir (lit "a/b/c.md") = lit "a/b".
Proof. reflexivity. Qed.

(** ** Lists and strings *)

Lemma nth_error_snoc (A : Type) (l : list A) (x : A) :
  nth_error (l ++ [x]) (List.length l) = Some x.
Proof. induction l as [|a l IH]; simpl; auto. Qed.

Lemma update_nth_snoc (f : Tree -> Tree) (l : list Tree) (x : Tree) :
  update_nth (List.length l) f (l ++ [x]) = l ++ [f x].
Proof. induction l as [|a l IH]; simpl; [reflexivity | now rewrite IH]. Qed.

Lemma trimStart_blank (s : jsstring) :
  forallb isWhiteSpace s = true -> trimStart s = [].
Proof.
  induction s as [|c s IH]; simpl; intros H; [reflexivity|].
  apply andb_true_iff in H as [Hc Hs]. rewrite Hc. auto.
Qed.

Lemma trim_blank (s : jsstring) :
  forallb isWhiteSpace s = true -> trim s = [].
Proof.
  intros H. unfold trim, trimEnd. now rewrite (trimStart_blank s H).
Qed.

Lemma or_str_empty (s : jsstring) : or_str s [] = s.
Proof. destruct s; reflexivity. Qed.

(** ** Initialization *)

Lemma initialize_when_ready (rev : Revision) (env : Env) (w : World) :
  mermaidInitialized w = true ->
  initializeMermaid_of rev env w = (inr tt, w).
Proof.
  intros H. destruct rev; simpl;
    unfold main_ts.initializeMermaid, part_000.initializeMermaid,
      bind, get_initialized; rewrite H; reflexivity.
Qed.

Lemma initialize_succeeds (rev : Revision) (env : Env) (w : World) :
  mermaidInitialized w = false ->
  initialize_outcome env (trace w) (config_of rev env) = None ->
  initializeMermaid_of rev env w
  = (inr tt, set_initialized true (log (mermaid_initialize (config_of rev env)) w)).
Proof.
  intros H Ho. destruct rev; simpl in *;
    unfold main_ts.initializeMermaid, part_000.initializeMermaid,
      bind, get_initialized, try_catch, call_out, put_initialized;
    rewrite H, Ho; reflexivity.
Qed.

Lemma initialize_fails (rev : Revision) (env : Env) (w : World) (e : Thrown) :
  mermaidInitialized w = false ->
  initialize_outcome env (trace w) (config_of rev env) = Some e ->
  initializeMermaid_of rev env w
  = (inr tt, log (mermaid_initialize (config_of rev env)) w).
Proof.
  intros H Ho. destruct rev; simpl in *;
    unfold main_ts.initializeMermaid, part_000.initializeMermaid,
      bind, get_initialized, try_catch, call_out, put_initialized, ret;
    rewrite H, Ho; reflexivity.
Qed.

(** ** Building the tree *)

Opaque lit.

Lemma node_at_last (t c : Tree) (h : handle) :
  node_at (List.length (children t) :: h) (appendChild c t) = node_at h c.
Proof. simpl. now rewrite nth_error_snoc. Qed.

Lemma update_at_last (f : Tree -> Tree) (t c : Tree) (h : handle) :
  update_at (List.length (children t) :: h) f (appendChild c t)
  = appendChild (update_at h f c) t.
Proof. simpl. unfold appendChild. simpl. now rewrite update_nth_snoc. Qed.

Lemma createEl_root (tag text : jsstring) (cls : list jsstring) (w : World) :
  createEl el tag text cls w
  = (inr [List.length (children (doc w))],
     set_doc (appendChild (new_element tag text cls) (doc w)) w).
Proof. reflexivity. Qed.

Lemma createEl_in_last (t c : Tree) (h : handle) (tag text : jsstring)
  (cls : list jsstring) (w : World) :
  createEl (List.length (children t) :: h) tag text cls
    (set_doc (appendChild c t) w)
  = (inr (List.length (children t) :: h
          ++ [match node_at h c with
              | Some x => List.length (children x)
              | None => O
              end]),
     set_doc (appendChild
                (update_at h (appendChild (new_element tag text cls)) c) t) w).
Proof.
  unfold createEl. cbn [doc set_doc].
  rewrite node_at_last, update_at_last. reflexivity.
Qed.

Lemma modify_in_last (t c : Tree) (h : handle) (f : Tree -> Tree) (w : World) :
  modify_at (List.length (children t) :: h) f (set_doc (appendChild c t) w)
  = (inr tt, set_doc (appendChild (update_at h f c) t) w).
Proof.
  unfold modify_at, modify_doc. cbn [doc set_doc].
  rewrite update_at_last. reflexivity.
Qed.

Lemma query_in_last (t c : Tree) (sel : Props -> bool) (w : World) :
  query_at [List.length (children t)] sel (set_doc (appendChild c t) w)
  = (inr (querySelector sel c), set_doc (appendChild c t) w).
Proof. unfold query_at. cbn [doc set_doc]. now rewrite node_at_last. Qed.

Ltac in_tree :=
  cbn [node_at update_at children appendChild new_element props app
       List.length map_props set_children].

Lemma show_error_appends (source : jsstring) (e : Thrown) (w : World) :
  show_error source el e w
  = (inr tt, set_doc (appendChild (error_block source e) (doc w)) w).
Proof.
  unfold show_error, bind. rewrite createEl_root.
  rewrite createEl_in_last. in_tree.
  rewrite createEl_in_last. in_tree.
  rewrite createEl_in_last. reflexivity.
Qed.

Lemma show_not_ready_appends (w : World) :
  show_not_ready el w
  = (inr tt, set_doc (appendChild not_ready_block (doc w)) w).
Proof. reflexivity. Qed.

(** ** The render handler, by the state of the library *)

Lemma render_when_ready (rev : Revision) (env : Env) (source : jsstring)
  (ctx : Context) (w : World) :
  mermaidInitialized w = true ->
  renderMermaid_of rev env source el ctx w
  = try_catch (render_try_of rev env source el ctx) (show_error source el) w.
Proof.
  intros H. destruct rev; simpl;
    unfold main_ts.renderMermaid, part_000.renderMermaid, bind, get_initialized, ret;
    rewrite H; simpl; rewrite H; reflexivity.
Qed.

Lemma render_after_initializing (rev : Revision) (env : Env) (source : jsstring)
  (ctx : Context) (w : World) :
  mermaidInitialized w = false ->
  initialize_outcome env (trace w) (config_of rev env) = None ->
  renderMermaid_of rev env source el ctx w
  = try_catch (render_try_of rev env source el ctx) (show_error source el)
      (set_initialized true (log (mermaid_initialize (config_of rev env)) w)).
Proof.
  intros H Ho. pose proof (initialize_succeeds rev env w H Ho) as E.
  destruct rev; simpl in *;
    unfold main_ts.renderMermaid, part_000.renderMermaid, bind, get_initialized;
    rewrite H; simpl; rewrite E; reflexivity.
Qed.

Lemma render_not_ready (rev : Revision) (env : Env) (source : jsstring)
  (ctx : Context) (w : World) (e : Thrown) :
  mermaidInitialized w = false ->
  initialize_outcome env (trace w) (config_of rev env) = Some e ->
  renderMermaid_of rev env source el ctx w
  = (inr tt, set_doc (appendChild not_ready_block (doc w))
               (log (mermaid_initialize (config_of rev env)) w)).
Proof.
  intros H Ho. pose proof (initialize_fails rev env w e H Ho) as E.
  destruct rev; simpl in *;
    unfold main_ts.renderMermaid, part_000.renderMermaid, bind, get_initialized;
    rewrite H; simpl; rewrite E; simpl; rewrite H; reflexivity.
Qed.

Ltac open_render_try :=
  unfold render_try_of, main_ts.render_try, part_000.render_try, bind,
    get_trace, throw, ret, call_out;
  rewrite createEl_root.

Lemma render_try_blank (rev : Revision) (env : Env) (source : jsstring)
  (ctx : Context) (w : World) :
  trim source = [] ->
  render_try_of rev env source el ctx w
  = (inl (Error (lit "Empty Mermaid diagram")),
     set_doc (appendChild empty_container (doc w)) w).
Proof.
  intros E. destruct rev; open_render_try; rewrite E; reflexivity.
Qed.

Lemma addExportFunctionality_returns (rev : Revision) (container : handle)
  (id : jsstring) (ctx : Context) (w : World) :
  exists w',
    match rev with
    | MainTs => main_ts.addExportFunctionality
    | Part000 => part_000.addExportFunctionality
    end container id ctx w = (inr tt, w').
Proof.
  destruct rev.
  - eexists; reflexivity.
  - unfold part_000.addExportFunctionality, bind, query_at.
    destruct (match node_at container (doc w) with
              | Some t => querySelector (has_class (lit "mermaid-export-btn")) t
              | None => None
              end); eexists; reflexivity.
Qed.

(** What a failed attempt leaves behind: the empty container, the flag
    untouched, and some calls to the library. *)
Lemma render_try_fails (rev : Revision) (env : Env) (source : jsstring)
  (ctx : Context) (w w1 : World) (e : Thrown) :
  render_try_of rev env source el ctx w = (inl e, w1) ->
  exists new,
    w1 = {| mermaidInitialized := mermaidInitialized w;
            doc := appendChild empty_container (doc w);
            trace := trace w ++ new |}.
Proof.
  destruct rev; open_render_try;
    (destruct (truthy (trim source)); cbn [negb];
     [ destruct (parse_outcome env _ (trim source)) as [e0|[|]]; cbn [negb];
       [ | destruct (render_outcome env _ _ _) as [e1|svg] | ] | ]).
  all: try (intros [= <- <-]; unfold log, set_doc;
            cbn [trace doc mermaidInitialized];
            rewrite <- ?app_assoc; eexists; reflexivity).
  all: try (intros [= <- <-]; exists []; unfold set_doc; cbn;
            now rewrite app_nil_r).
  destruct (has_tag (lit "svg") (props (parseFromString env svg))).
  - unfold modify_at, modify_doc.
    match goal with
    | |- context [part_000.addExportFunctionality ?h ?i ?c ?x] =>
        destruct (addExportFunctionality_returns Part000 h i c x) as [w' ->]
    end.
    intros [=].
  - intros [= <- <-]. unfold log, set_doc; cbn [trace doc mermaidInitialized].
    rewrite <- ?app_assoc; eexists; reflexivity.
Qed.

Lemma render_try_invalid (rev : Revision) (env : Env) (source : jsstring)
  (ctx : Context) (w : World) :
  truthy (trim source) = true ->
  (parse_outcome env (trace w) (trim source) = inr false
   \/ exists e, parse_outcome env (trace w) (trim source) = inl e) ->
  exists e w1, render_try_of rev env source el ctx w = (inl e, w1).
Proof.
  intros Ht Hp. destruct rev; open_render_try; rewrite Ht; cbn [negb];
    cbn [trace set_doc]; destruct Hp as [-> | [e ->]];
    eexists; eexists; reflexivity.
Qed.

(** The handler's result once the attempt has failed. *)
Lemma render_failed (rev : Revision) (env : Env) (source : jsstring)
  (ctx : Context) (w w1 : World) (e : Thrown) :
  mermaidInitialized w = true ->
  render_try_of rev env source el ctx w = (inl e, w1) ->
  exists new,
    renderMermaid_of rev env source el ctx w
    = (inr tt,
       {| mermaidInitialized := true;
          doc := Elem (props (doc w))
                   (children (doc w) ++ [empty_container; error_block source e]);
          trace := trace w ++ new |}).
Proof.
  intros Hr Hf. rewrite (render_when_ready rev env source ctx w Hr).
  unfold try_catch. rewrite Hf.
  destruct (render_try_fails rev env source ctx w w1 e Hf) as [new ->].
  exists new. rewrite show_error_appends. unfold set_doc, appendChild.
  cbn [doc trace mermaidInitialized children props].
  now rewrite Hr, <- app_assoc.
Qed.

(** ** Empty input *)

(** C3.  For a source text that is empty or all whitespace, the handler
    appends an element of class [mermaid-error] under the output element
    and makes no call of [mermaid.render], whatever the state of the
    library. *)
Theorem blank_source_error_block_no_render (rev : Revision) (env : Env)
  (source : jsstring) (ctx : Context) (w : World) :
  forallb isWhiteSpace source = true ->
  exists blocks calls w',
    renderMermaid_of rev env source el ctx w = (inr tt, w')
    /\ children (doc w') = children (doc w) ++ blocks
    /\ existsb is_error_block blocks = true
    /\ trace w' = trace w ++ calls
    /\ existsb is_mermaid_render calls = false.
Proof.
  intros Hb. pose proof (trim_blank source Hb) as Ht.
  assert (Hfail : forall v,
            try_catch (render_try_of rev env source el ctx) (show_error source el) v
            = (inr tt,
               set_doc (appendChild
                          (error_block source (Error (lit "Empty Mermaid diagram")))
                          (appendChild empty_container (doc v))) v)).
  { intros v. unfold try_catch. rewrite (render_try_blank rev env source ctx v Ht).
    now rewrite show_error_appends. }
  destruct (mermaidInitialized w) eqn:Hr.
  - exists [empty_container; error_block source (Error (lit "Empty Mermaid diagram"))],
      []. eexists.
    split; [rewrite (render_when_ready rev env source ctx w Hr); apply Hfail|]. cbn [doc set_doc appendChild children].
    rewrite <- app_assoc, app_nil_r. repeat split; vm_compute; reflexivity.
  - destruct (initialize_outcome env (trace w) (config_of rev env)) as [e|] eqn:Ho.
    + exists [not_ready_block], [mermaid_initialize (config_of rev env)].
      eexists.
      split; [apply (render_not_ready rev env source ctx w e Hr Ho)|].
      repeat split; vm_compute; reflexivity.
    + exists [empty_container; error_block source (Error (lit "Empty Mermaid diagram"))],
        [mermaid_initialize (config_of rev env)]. eexists.
      split.
      * rewrite (render_after_initializing rev env source ctx w Hr Ho).
        apply Hfail.
      * cbn [doc set_doc appendChild children set_initialized log trace].
        rewrite <- app_assoc. repeat split; vm_compute; reflexivity.
Qed.

Lemma blank_source_error_block_no_render_witness :
  forallb isWhiteSpace (lit "  ") = true
  /\ exists blocks calls w',
       renderMermaid_of Part000 Demo.env_ok (lit "  ") el Demo.note_ctx Demo.ready
       = (inr tt, w')
       /\ children (doc w') = children (doc Demo.ready) ++ blocks
       /\ existsb is_error_block blocks = true
       /\ trace w' = trace Demo.ready ++ calls
       /\ existsb is_mermaid_render calls = false.
Proof.
  split; [vm_compute; reflexivity|].
  apply (blank_source_error_block_no_render Part000 Demo.env_ok (lit "  ")
           Demo.note_ctx Demo.ready).
  vm_compute; reflexivity.
Defined.

(** ** Failed renders *)

(** C4.  With the library initialized, whenever the attempt fails (and it
    does fail on a text that [mermaid.parse] rejects, by a falsy result or
    by throwing), the last element under the output element is the error
    block; it shows the text exactly as the host passed it, not the
    trimmed text, next to the message of the error. *)
Theorem failed_render_shows_raw_source (rev : Revision) (env : Env)
  (source : jsstring) (ctx : Context) (w : World) :
  mermaidInitialized w = true ->
  (forall e w1,
     render_try_of rev env source el ctx w = (inl e, w1) ->
     exists before blk w',
       renderMermaid_of rev env source el ctx w = (inr tt, w')
       /\ children (doc w') = before ++ [blk]
       /\ is_error_block blk = true
       /\ shown_source blk = Some source
       /\ shown_message blk
          = Some (lit "Mermaid Error: " ++ message_or e (lit "Unknown error")))
  /\ (truthy (trim source) = true ->
      (parse_outcome env (trace w) (trim source) = inr false
       \/ exists e, parse_outcome env (trace w) (trim source) = inl e) ->
      exists e w1, render_try_of rev env source el ctx w = (inl e, w1)).
Proof.
  intros Hr. split.
  - intros e w1 Hf.
    destruct (render_failed rev env source ctx w w1 e Hr Hf) as [new E].
    exists (children (doc w) ++ [empty_container]), (error_block source e).
    eexists. split; [exact E|]. cbn [doc children].
    rewrite <- app_assoc. repeat split.
  - apply render_try_invalid.
Qed.

Lemma failed_render_shows_raw_source_witness :
  mermaidInitialized Demo.ready = true
  /\ exists e w1 before blk w',
       render_try_of Part000 Demo.env_rejecting Demo.bad_source el
         Demo.note_ctx Demo.ready = (inl e, w1)
       /\ renderMermaid_of Part000 Demo.env_rejecting Demo.bad_source el
            Demo.note_ctx Demo.ready = (inr tt, w')
       /\ children (doc w') = before ++ [blk]
       /\ shown_source blk = Some Demo.bad_source.
Proof.
  split; [reflexivity|].
  destruct (failed_render_shows_raw_source Part000 Demo.env_rejecting
              Demo.bad_source Demo.note_ctx Demo.ready eq_refl)
    as [Hany Hinvalid].
  destruct Hinvalid as (e & w1 & Hf);
    [vm_compute; reflexivity | left; vm_compute; reflexivity |].
  destruct (Hany e w1 Hf) as (before & blk & w' & E & Hk & _ & Hs & _).
  exists e, w1, before, blk, w'. auto.
Defined.

(** The failures of an attempt, from what causes them: a blank text; a
    text [mermaid.parse] answers with a falsy result, or throws on; a
    text [mermaid.render] throws on; and, in [part_000], markup whose root
    is not [svg].  Each ends the attempt with the error named, leaving
    the empty container behind; a blank text ends it before any call. *)
Lemma render_try_fails_when (rev : Revision) (env : Env) (source : jsstring)
  (ctx : Context) (w : World) (e : Thrown) :
  let text := trim source in
  let id := fresh_id env (trace w) in
  (truthy text = false /\ e = Error (lit "Empty Mermaid diagram"))
  \/ (truthy text = true /\ parse_outcome env (trace w) text = inr false
      /\ e = Error (lit "Invalid Mermaid syntax"))
  \/ (truthy text = true /\ parse_outcome env (trace w) text = inl e)
  \/ (truthy text = true /\ parse_outcome env (trace w) text = inr true
      /\ render_outcome env (trace w ++ [mermaid_parse text]) id text = inl e)
  \/ (rev = Part000
      /\ truthy text = true /\ parse_outcome env (trace w) text = inr true
      /\ (exists markup,
            render_outcome env (trace w ++ [mermaid_parse text]) id text
            = inr markup
            /\ has_tag (lit "svg") (props (parseFromString env markup)) = false)
      /\ e = Error (lit "Failed to render SVG element")) ->
  exists calls,
    render_try_of rev env source el ctx w
    = (inl e, {| mermaidInitialized := mermaidInitialized w;
                 doc := appendChild empty_container (doc w);
                 trace := trace w ++ calls |})
    /\ (truthy text = false -> calls = []).
Proof.
  intros text id. subst text id.
  intros [(Ht & ->) | [(Ht & Hp & ->) | [(Ht & Hp) | [(Ht & Hp & Hr)
          | (Hrev & Ht & Hp & (markup & Hr & Hs) & ->)]]]].
  - exists []. split; [|reflexivity]. rewrite app_nil_r.
    destruct rev; open_render_try; rewrite Ht; reflexivity.
  - exists [mermaid_parse (trim source)]. split; [|congruence].
    destruct rev; open_render_try; rewrite Ht;
      unfold set_doc, log; cbn [trace doc mermaidInitialized negb];
      rewrite Hp; reflexivity.
  - exists [mermaid_parse (trim source)]. split; [|congruence].
    destruct rev; open_render_try; rewrite Ht;
      unfold set_doc, log; cbn [trace doc mermaidInitialized negb];
      rewrite Hp; reflexivity.
  - exists [mermaid_parse (trim source);
            mermaid_render (fresh_id env (trace w)) (trim source)].
    split; [|congruence].
    destruct rev; open_render_try; rewrite Ht;
      unfold set_doc, log; cbn [trace doc mermaidInitialized negb];
      rewrite Hp; cbn [trace doc mermaidInitialized negb];
      rewrite Hr; rewrite <- app_assoc; reflexivity.
  - exists [mermaid_parse (trim source);
            mermaid_render (fresh_id env (trace w)) (trim source)].
    split; [|congruence]. subst rev.
    open_render_try; rewrite Ht;
      unfold set_doc, log; cbn [trace doc mermaidInitialized negb];
      rewrite Hp; cbn [trace doc mermaidInitialized negb];
      rewrite Hr; cbn [trace doc mermaidInitialized negb];
      rewrite Hs; rewrite <- app_assoc; reflexivity.
Qed.

(** C10.  A failed attempt is not undone.  With the library initialized,
    when the text is blank, when [mermaid.parse] rejects it (by a falsy
    result or by throwing), when [mermaid.render] throws, or when, in
    [part_000], the markup has no [svg] root, the empty
    [mermaid-container] element created at the start stays under the
    output element, followed by the error block, so the output element
    differs from what it was. *)
Theorem failed_render_keeps_empty_container (rev : Revision) (env : Env)
  (source : jsstring) (ctx : Context) (w : World) (e : Thrown) :
  mermaidInitialized w = true ->
  (truthy (trim source) = false /\ e = Error (lit "Empty Mermaid diagram"))
  \/ (truthy (trim source) = true
      /\ parse_outcome env (trace w) (trim source) = inr false
      /\ e = Error (lit "Invalid Mermaid syntax"))
  \/ (truthy (trim source) = true
      /\ parse_outcome env (trace w) (trim source) = inl e)
  \/ (truthy (trim source) = true
      /\ parse_outcome env (trace w) (trim source) = inr true
      /\ render_outcome env (trace w ++ [mermaid_parse (trim source)])
           (fresh_id env (trace w)) (trim source) = inl e)
  \/ (rev = Part000
      /\ truthy (trim source) = true
      /\ parse_outcome env (trace w) (trim source) = inr true
      /\ (exists markup,
            render_outcome env (trace w ++ [mermaid_parse (trim source)])
              (fresh_id env (trace w)) (trim source) = inr markup
            /\ has_tag (lit "svg") (props (parseFromString env markup)) = false)
      /\ e = Error (lit "Failed to render SVG element")) ->
  exists w',
    renderMermaid_of rev env source el ctx w = (inr tt, w')
    /\ children (doc w')
       = children (doc w) ++ [empty_container; error_block source e]
    /\ children empty_container = []
    /\ has_class (lit "mermaid-container") (props empty_container) = true
    /\ doc w' <> doc w.
Proof.
  intros Hr Hcause.
  destruct (render_try_fails_when rev env source ctx w e Hcause) as (calls & Hf & _).
  destruct (render_failed rev env source ctx w _ e Hr Hf) as [new E].
  eexists. split; [exact E|]. cbn [doc children].
  repeat split; try (vm_compute; reflexivity).
  intros Heq. apply (f_equal (fun t => List.length (children t))) in Heq.
  cbn [children] in Heq. rewrite length_app in Heq. cbn [List.length] in Heq. lia.
Qed.

Lemma failed_render_keeps_empty_container_witness :
  (mermaidInitialized Demo.ready = true
   /\ parse_outcome Demo.env_rejecting (trace Demo.ready) (trim Demo.bad_source)
      = inr false
   /\ exists w',
        renderMermaid_of MainTs Demo.env_rejecting Demo.bad_source el
          Demo.note_ctx Demo.ready = (inr tt, w')
        /\ children (doc w')
           = children (doc Demo.ready)
             ++ [empty_container;
                 error_block Demo.bad_source (Error (lit "Invalid Mermaid syntax"))]
        /\ children empty_container = []
        /\ has_class (lit "mermaid-container") (props empty_container) = true
        /\ doc w' <> doc Demo.ready)
  /\ (has_tag (lit "svg")
        (props (parseFromString Demo.env_bad_markup (lit "<p>"))) = false
      /\ exists w',
           renderMermaid_of Part000 Demo.env_bad_markup Demo.good_source el
             Demo.note_ctx Demo.ready = (inr tt, w')
           /\ children (doc w')
              = children (doc Demo.ready)
                ++ [empty_container;
                    error_block Demo.good_source
                      (Error (lit "Failed to render SVG element"))]
           /\ children empty_container = []
           /\ has_class (lit "mermaid-container") (props empty_container) = true
           /\ doc w' <> doc Demo.ready).
Proof.
  split.
  - split; [reflexivity|]. split; [vm_compute; reflexivity|].
    apply (failed_render_keeps_empty_container MainTs Demo.env_rejecting
             Demo.bad_source Demo.note_ctx Demo.ready
             (Error (lit "Invalid Mermaid syntax")) eq_refl).
    right; left. repeat split; vm_compute; reflexivity.
  - split; [vm_compute; reflexivity|].
    apply (failed_render_keeps_empty_container Part000 Demo.env_bad_markup
             Demo.good_source Demo.note_ctx Demo.ready
             (Error (lit "Failed to render SVG element")) eq_refl).
    right; right; right; right.
    split; [reflexivity|]. split; [vm_compute; reflexivity|].
    split; [vm_compute; reflexivity|]. split; [|reflexivity].
    exists (lit "<p>"). split; vm_compute; reflexivity.
Defined.

(** ** What the handler never touches *)

Create HintDb frame.

Lemma keeps_flag_ret (A : Type) (a : A) : keeps_flag (ret a).
Proof. intros w r w' [= _ <-]. reflexivity. Qed.

Lemma keeps_flag_throw (A : Type) (e : Thrown) : keeps_flag (@throw A e).
Proof. intros w r w' [= _ <-]. reflexivity. Qed.

Lemma keeps_flag_bind (A B : Type) (m : M A) (k : A -> M B) :
  keeps_flag m -> (forall a, keeps_flag (k a)) -> keeps_flag (bind m k).
Proof.
  intros Hm Hk w r w'. unfold bind.
  destruct (m w) as [[e|a] w1] eqn:E.
  - intros [= _ <-]. apply (Hm _ _ _ E).
  - intros E'. rewrite (Hk a _ _ _ E'). apply (Hm _ _ _ E).
Qed.

Lemma keeps_flag_try_catch (A : Type) (m : M A) (h : Thrown -> M A) :
  keeps_flag m -> (forall e, keeps_flag (h e)) -> keeps_flag (try_catch m h).
Proof.
  intros Hm Hh w r w'. unfold try_catch.
  destruct (m w) as [[e|a] w1] eqn:E.
  - intros E'. rewrite (Hh e _ _ _ E'). apply (Hm _ _ _ E).
  - intros [= _ <-]. apply (Hm _ _ _ E).
Qed.

Lemma keeps_flag_get_trace : keeps_flag get_trace.
Proof. intros w r w' [= _ <-]. reflexivity. Qed.

Lemma keeps_flag_createEl (h : handle) (tag text : jsstring) (cls : list jsstring) :
  keeps_flag (createEl h tag text cls).
Proof. intros w r w' [= _ <-]. reflexivity. Qed.

Lemma keeps_flag_modify_at (h : handle) (f : Tree -> Tree) :
  keeps_flag (modify_at h f).
Proof. intros w r w' [= _ <-]. reflexivity. Qed.

Lemma keeps_flag_query_at (h : handle) (sel : Props -> bool) :
  keeps_flag (query_at h sel).
Proof. intros w r w' [= _ <-]. reflexivity. Qed.

Lemma keeps_flag_call_out (A : Type) (c : Call) (o : list Call -> Thrown + A) :
  keeps_flag (call_out c o).
Proof. intros w r w' [= _ <-]. reflexivity. Qed.

Lemma keeps_flag_new_Notice (msg : jsstring) : keeps_flag (new_Notice msg).
Proof. intros w r w' [= _ <-]. reflexivity. Qed.

#[local] Hint Resolve keeps_flag_ret keeps_flag_throw keeps_flag_get_trace
  keeps_flag_createEl keeps_flag_modify_at keeps_flag_query_at
  keeps_flag_call_out keeps_flag_new_Notice : frame.

Ltac frame :=
  repeat first
    [ progress auto with frame
    | apply keeps_flag_bind; [ | intros ? ]
    | apply keeps_flag_try_catch; [ | intros ? ]
    | match goal with
      | |- keeps_flag (if ?b then _ else _) => destruct b
      | |- keeps_flag (match ?o with Some _ => _ | None => _ end) => destruct o
      end ].

Lemma render_try_keeps_flag (rev : Revision) (env : Env) (source : jsstring)
  (h : handle) (ctx : Context) :
  keeps_flag (render_try_of rev env source h ctx).
Proof.
  destruct rev; simpl;
    unfold main_ts.render_try, part_000.render_try,
      main_ts.addExportFunctionality, part_000.addExportFunctionality;
    cbv zeta; frame.
Qed.

(** ** Initialization *)

Lemma repeat_initialize_ready (rev : Revision) (env : Env) (n : nat) (w : World) :
  mermaidInitialized w = true -> repeat_initialize rev env n w = w.
Proof.
  intros H. induction n as [|n IH]; simpl; [reflexivity|].
  now rewrite (initialize_when_ready rev env w H).
Qed.

(** C5.  When the first call of [initializeMermaid] succeeds, it makes one
    call of [mermaid.initialize] and sets the flag; a second call, and any
    number of further calls, change nothing: no call to the library is
    added and the flag stays set. *)
Theorem initializeMermaid_idempotent (rev : Revision) (env : Env) (w : World) :
  mermaidInitialized w = false ->
  initialize_outcome env (trace w) (config_of rev env) = None ->
  let w1 := snd (initializeMermaid_of rev env w) in
  let w2 := snd (initializeMermaid_of rev env w1) in
  mermaidInitialized w1 = true
  /\ trace w1 = trace w ++ [mermaid_initialize (config_of rev env)]
  /\ w2 = w1
  /\ initialize_calls w2 = S (initialize_calls w)
  /\ (forall n, repeat_initialize rev env n w1 = w1)
  /\ (forall v, mermaidInitialized v = true ->
        initializeMermaid_of rev env v = (inr tt, v)).
Proof.
  intros H Ho w1 w2. subst w2 w1.
  rewrite (initialize_succeeds rev env w H Ho). cbn [snd].
  set (w1 := set_initialized true _).
  assert (H1 : mermaidInitialized w1 = true) by reflexivity.
  rewrite (initialize_when_ready rev env w1 H1). cbn [snd].
  repeat split.
  - unfold initialize_calls, w1. cbn [trace set_initialized log].
    rewrite filter_app, length_app. cbn. lia.
  - intros n. apply repeat_initialize_ready, H1.
  - apply initialize_when_ready.
Qed.

Lemma initializeMermaid_idempotent_witness :
  let w1 := snd (initializeMermaid_of Part000 Demo.env_ok Demo.fresh) in
  let w2 := snd (initializeMermaid_of Part000 Demo.env_ok w1) in
  mermaidInitialized Demo.fresh = false
  /\ mermaidInitialized w1 = true
  /\ w2 = w1
  /\ initialize_calls w2 = 1%nat.
Proof.
  intros w1 w2. split; [reflexivity|].
  destruct (initializeMermaid_idempotent Part000 Demo.env_ok Demo.fresh
              eq_refl eq_refl) as (H1 & _ & H2 & H3 & _).
  repeat split; assumption.
Defined.

(** C2, as the code has it.  A failed [mermaid.initialize] leaves the flag
    false.  Every render attempt made while the flag is false calls
    [mermaid.initialize] again: if that call fails too, the attempt adds
    the fixed message and nothing else, and the flag stays false; if it
    succeeds, the flag becomes true and the attempt goes on as it does
    for an initialized library. *)
Theorem failed_initialization_is_retried (rev : Revision) (env : Env)
  (source : jsstring) (ctx : Context) (w : World) :
  mermaidInitialized w = false ->
  (forall e, initialize_outcome env (trace w) (config_of rev env) = Some e ->
     mermaidInitialized (snd (initializeMermaid_of rev env w)) = false
     /\ renderMermaid_of rev env source el ctx w
        = (inr tt,
           {| mermaidInitialized := false;
              doc := appendChild not_ready_block (doc w);
              trace := trace w ++ [mermaid_initialize (config_of rev env)] |}))
  /\ (initialize_outcome env (trace w) (config_of rev env) = None ->
      let ready :=
        {| mermaidInitialized := true;
           doc := doc w;
           trace := trace w ++ [mermaid_initialize (config_of rev env)] |} in
      renderMermaid_of rev env source el ctx w
      = renderMermaid_of rev env source el ctx ready
      /\ mermaidInitialized (snd (renderMermaid_of rev env source el ctx w)) = true).
Proof.
  intros H. split.
  - intros e Ho. rewrite (initialize_fails rev env w e H Ho).
    rewrite (render_not_ready rev env source ctx w e H Ho).
    unfold set_doc, log. cbn. rewrite H. split; reflexivity.
  - intros Ho ready.
    rewrite (render_after_initializing rev env source ctx w H Ho).
    rewrite (render_when_ready rev env source ctx ready eq_refl).
    split; [reflexivity|].
    change (set_initialized true (log (mermaid_initialize (config_of rev env)) w))
      with ready.
    unfold try_catch.
    destruct (render_try_of rev env source el ctx ready) as [[e|[]] w1] eqn:Hf.
    + destruct (render_try_fails rev env source ctx ready w1 e Hf) as [new ->].
      rewrite show_error_appends. reflexivity.
    + cbn [snd]. apply (render_try_keeps_flag rev env source el ctx _ _ _ Hf).
Qed.

Lemma failed_initialization_is_retried_witness :
  mermaidInitialized Demo.fresh = false
  /\ mermaidInitialized
       (snd (initializeMermaid_of Part000 Demo.env_flaky Demo.fresh)) = false
  /\ renderMermaid_of Part000 Demo.env_flaky Demo.good_source el Demo.note_ctx
       Demo.fresh
     = (inr tt,
        {| mermaidInitialized := false;
           doc := appendChild not_ready_block (doc Demo.fresh);
           trace := [mermaid_initialize part_000.config] |}).
Proof.
  split; [reflexivity|].
  destruct (failed_initialization_is_retried Part000 Demo.env_flaky
              Demo.good_source Demo.note_ctx Demo.fresh eq_refl) as [Hfail _].
  apply (Hfail Demo.boom). vm_compute; reflexivity.
Defined.

(** C2 as stated fails: [mermaid.initialize] throws when the plugin loads,
    the flag is false, and yet the next render attempt, whose own call of
    [mermaid.initialize] returns, sets the flag and attaches the diagram
    instead of the fixed message.  So in both revisions. *)
Lemma failed_initialization_recovers :
  recovers_after_failed_load MainTs Demo.env_flaky Demo.good_source
    Demo.note_ctx Demo.fresh
  /\ recovers_after_failed_load Part000 Demo.env_flaky Demo.good_source
       Demo.note_ctx Demo.fresh.
Proof.
  split; unfold recovers_after_failed_load;
    repeat split; try (vm_compute; reflexivity); vm_compute; intros [=].
Qed.

(** ** Successful renders *)

Lemma createEl_in_last_of (b : bool) (tr : list Call) (t c : Tree) (h : handle)
  (tag text : jsstring) (cls : list jsstring) :
  createEl (List.length (children t) :: h) tag text cls
    {| mermaidInitialized := b; doc := appendChild c t; trace := tr |}
  = (inr (List.length (children t) :: h
          ++ [match node_at h c with
              | Some x => List.length (children x)
              | None => O
              end]),
     {| mermaidInitialized := b;
        doc := appendChild
                 (update_at h (appendChild (new_element tag text cls)) c) t;
        trace := tr |}).
Proof.
  exact (createEl_in_last t c h tag text cls
           {| mermaidInitialized := b; doc := t; trace := tr |}).
Qed.

Lemma modify_in_last_of (b : bool) (tr : list Call) (t c : Tree) (h : handle)
  (f : Tree -> Tree) :
  modify_at (List.length (children t) :: h) f
    {| mermaidInitialized := b; doc := appendChild c t; trace := tr |}
  = (inr tt,
     {| mermaidInitialized := b; doc := appendChild (update_at h f c) t;
        trace := tr |}).
Proof.
  exact (modify_in_last t c h f
           {| mermaidInitialized := b; doc := t; trace := tr |}).
Qed.

Lemma query_in_last_of (b : bool) (tr : list Call) (t c : Tree)
  (sel : Props -> bool) :
  query_at [List.length (children t)] sel
    {| mermaidInitialized := b; doc := appendChild c t; trace := tr |}
  = (inr (querySelector sel c),
     {| mermaidInitialized := b; doc := appendChild c t; trace := tr |}).
Proof.
  exact (query_in_last t c sel
           {| mermaidInitialized := b; doc := t; trace := tr |}).
Qed.

Ltac world :=
  unfold set_doc, log, set_initialized;
  cbn [trace doc mermaidInitialized negb].

Lemma part_000_render_try_succeeds (env : Env) (source : jsstring)
  (ctx : Context) (w : World) (markup : jsstring) :
  truthy (trim source) = true ->
  parse_outcome env (trace w) (trim source) = inr true ->
  render_outcome env (trace w ++ [mermaid_parse (trim source)])
    (fresh_id env (trace w)) (trim source) = inr markup ->
  has_tag (lit "svg") (props (parseFromString env markup)) = true ->
  exists rest w1,
    part_000.render_try env source el ctx w = (inr tt, w1)
    /\ doc w1 = appendChild (Elem (props empty_container)
                               (parseFromString env markup :: rest)) (doc w)
    /\ forallb (fun k => has_tag (lit "button") (props k)) rest = true
    /\ forallb (fun k => match children k with [] => true | _ => false end) rest = true.
Proof.
  intros Ht Hp Hr Hs. open_render_try. rewrite Ht. world.
  rewrite Hp. world. rewrite Hr. world. rewrite Hs.
  rewrite modify_in_last_of. in_tree.
  unfold part_000.addExportFunctionality, bind. rewrite query_in_last_of.
  destruct (querySelector _ _).
  - exists []. eexists. repeat split.
  - rewrite createEl_in_last_of. in_tree.
    rewrite modify_in_last_of. in_tree. cbn [update_nth]. in_tree.
    rewrite modify_in_last_of. in_tree. cbn [update_nth]. in_tree.
    eexists. eexists. split; [reflexivity|]. split; [reflexivity|].
    split; vm_compute; reflexivity.
Qed.

Lemma main_ts_render_try_succeeds (env : Env) (source : jsstring)
  (ctx : Context) (w : World) (markup : jsstring) (t : Tree) :
  truthy (trim source) = true ->
  parse_outcome env (trace w) (trim source) = inr true ->
  render_outcome env (trace w ++ [mermaid_parse (trim source)])
    (fresh_id env (trace w)) (trim source) = inr markup ->
  innerHTML_parse env markup = [t] ->
  has_tag (lit "svg") (props t) = true ->
  exists p btn w1,
    main_ts.render_try env source el ctx w = (inr tt, w1)
    /\ doc w1 = appendChild (Elem p [map_props main_ts.responsive t; btn]) (doc w)
    /\ classList p = [lit "mermaid-container"]
    /\ has_tag (lit "button") (props btn) = true
    /\ children btn = [].
Proof.
  intros Ht Hp Hr Hi Hs. open_render_try. rewrite Ht. world.
  rewrite Hp. world. rewrite Hr. world. rewrite Hi.
  repeat (rewrite modify_in_last_of; in_tree).
  unfold update_queried. destruct t as [p kids]. in_tree.
  cbn [update_first_among update_first_match props] in *.
  rewrite Hs.
  unfold main_ts.addExportFunctionality, bind.
  rewrite createEl_in_last_of. in_tree.
  repeat (rewrite modify_in_last_of; in_tree; cbn [update_nth]; in_tree).
  eexists. eexists. eexists. split; [reflexivity|]. split; [reflexivity|].
  repeat split.
Qed.

Lemma str_eqb_eq (a b : jsstring) : str_eqb a b = true -> a = b.
Proof.
  revert b. induction a as [|x a IH]; intros [|y b]; simpl; try discriminate.
  - reflexivity.
  - intros H. apply andb_true_iff in H as [Hx Hab].
    apply N.eqb_eq in Hx. now rewrite Hx, (IH b Hab).
Qed.

Lemma svg_roots_in_eq (p : Props) (kids : list Tree) :
  svg_roots_in (Elem p kids)
  = if has_tag (lit "svg") p then 1%nat else svg_roots_among kids.
Proof.
  simpl. destruct (has_tag (lit "svg") p); [reflexivity|].
  induction kids as [|k kids IH]; simpl; [reflexivity | now rewrite IH].
Qed.

Lemma svg_roots_among_app (l1 l2 : list Tree) :
  svg_roots_among (l1 ++ l2) = (svg_roots_among l1 + svg_roots_among l2)%nat.
Proof. induction l1 as [|k l1 IH]; simpl; [reflexivity | rewrite IH; lia]. Qed.

Lemma buttons_hold_no_svg (rest : list Tree) :
  forallb (fun k => has_tag (lit "button") (props k)) rest = true ->
  forallb (fun k => match children k with [] => true | _ => false end) rest = true ->
  svg_roots_among rest = 0%nat.
Proof.
  induction rest as [|[p kids] rest IH]; simpl; [reflexivity|].
  intros Hb Hc. apply andb_true_iff in Hb as [Hb Hbs].
  apply andb_true_iff in Hc as [Hc Hcs]. rewrite (IH Hbs Hcs).
  destruct kids; [|discriminate].
  unfold has_tag in *. apply str_eqb_eq in Hb. rewrite Hb.
  vm_compute. reflexivity.
Qed.

(** The attempt on a valid text whose markup has one [svg] root. *)
Lemma render_try_succeeds (rev : Revision) (env : Env) (source : jsstring)
  (ctx : Context) (w : World) (markup : jsstring) :
  truthy (trim source) = true ->
  parse_outcome env (trace w) (trim source) = inr true ->
  render_outcome env (trace w ++ [mermaid_parse (trim source)])
    (fresh_id env (trace w)) (trim source) = inr markup ->
  single_svg rev env markup = true ->
  exists p svg rest w1,
    render_try_of rev env source el ctx w = (inr tt, w1)
    /\ doc w1 = appendChild (Elem p (svg :: rest)) (doc w)
    /\ classList p = [lit "mermaid-container"]
    /\ has_tag (lit "svg") (props svg) = true
    /\ svg_roots_among rest = 0%nat.
Proof.
  intros Ht Hp Hr Hs. destruct rev; simpl in Hs.
  - destruct (innerHTML_parse env markup) as [|t [|]] eqn:Hi; try discriminate.
    destruct (main_ts_render_try_succeeds env source ctx w markup t Ht Hp Hr Hi Hs)
      as (p & btn & w1 & E & Hd & Hc & Hb & Hk).
    exists p, (map_props main_ts.responsive t), [btn], w1.
    split; [exact E|]. split; [exact Hd|]. split; [exact Hc|]. split.
    + destruct t; exact Hs.
    + apply buttons_hold_no_svg; simpl; [now rewrite Hb | now rewrite Hk].
  - destruct (part_000_render_try_succeeds env source ctx w markup Ht Hp Hr Hs)
      as (rest & w1 & E & Hd & Hb & Hk).
    exists (props empty_container), (parseFromString env markup), rest, w1.
    split; [exact E|]. split; [exact Hd|]. split; [reflexivity|].
    split; [exact Hs|]. now apply buttons_hold_no_svg.
Qed.

(** C9, as the code has it.  With the library initialized, for a text that
    is not blank, that [mermaid.parse] accepts and for which
    [mermaid.render] returns markup with a single [svg] root, the handler
    appends one [mermaid-container] element holding that one visual, and
    no error block. *)
Theorem valid_source_attaches_one_svg (rev : Revision) (env : Env)
  (source : jsstring) (ctx : Context) (w : World) (markup : jsstring) :
  mermaidInitialized w = true ->
  truthy (trim source) = true ->
  parse_outcome env (trace w) (trim source) = inr true ->
  render_outcome env (trace w ++ [mermaid_parse (trim source)])
    (fresh_id env (trace w)) (trim source) = inr markup ->
  single_svg rev env markup = true ->
  exists c w',
    renderMermaid_of rev env source el ctx w = (inr tt, w')
    /\ children (doc w') = children (doc w) ++ [c]
    /\ has_class (lit "mermaid-container") (props c) = true
    /\ is_error_block c = false
    /\ svg_roots c = 1%nat
    /\ one_visual_no_error (doc w) (doc w').
Proof.
  intros Hi Ht Hp Hr Hs.
  destruct (render_try_succeeds rev env source ctx w markup Ht Hp Hr Hs)
    as (p & svg & rest & w1 & E & Hd & Hc & Hsvg & Hrest).
  exists (Elem p (svg :: rest)), w1.
  rewrite (render_when_ready rev env source ctx w Hi). unfold try_catch.
  rewrite E, Hd. cbn [children appendChild props].
  assert (Hroots : svg_roots (Elem p (svg :: rest)) = 1%nat).
  { unfold svg_roots. cbn [children svg_roots_among]. rewrite Hrest.
    destruct svg as [q ks]. rewrite svg_roots_in_eq. cbn [props] in Hsvg.
    now rewrite Hsvg. }
  assert (Hnot : is_error_block (Elem p (svg :: rest)) = false).
  { unfold is_error_block, has_class. cbn [props]. rewrite Hc.
    vm_compute. reflexivity. }
  split; [reflexivity|]. split; [reflexivity|].
  split; [unfold has_class; rewrite Hc; vm_compute; reflexivity|].
  split; [exact Hnot|]. split; [exact Hroots|].
  unfold one_visual_no_error, svg_roots, error_blocks.
  cbn [children appendChild]. split.
  - rewrite svg_roots_among_app. cbn [svg_roots_among].
    rewrite svg_roots_in_eq. unfold svg_roots in Hroots. cbn [children] in Hroots.
    rewrite Hroots. destruct (has_tag (lit "svg") p); lia.
  - rewrite filter_app, length_app. cbn [filter]. rewrite Hnot. simpl. lia.
Qed.

Lemma valid_source_attaches_one_svg_witness :
  mermaidInitialized Demo.ready = true
  /\ truthy (trim Demo.good_source) = true
  /\ single_svg MainTs Demo.env_ok Demo.markup = true
  /\ exists c w',
       renderMermaid_of MainTs Demo.env_ok Demo.good_source el Demo.note_ctx
         Demo.ready = (inr tt, w')
       /\ children (doc w') = children (doc Demo.ready) ++ [c]
       /\ has_class (lit "mermaid-container") (props c) = true
       /\ is_error_block c = false
       /\ svg_roots c = 1%nat
       /\ one_visual_no_error (doc Demo.ready) (doc w').
Proof.
  split; [reflexivity|]. split; [vm_compute; reflexivity|].
  split; [vm_compute; reflexivity|].
  apply (valid_source_attaches_one_svg MainTs Demo.env_ok Demo.good_source
           Demo.note_ctx Demo.ready Demo.markup);
    vm_compute; reflexivity.
Defined.

(** C9 as stated fails: the library is initialized, the text is valid and
    [mermaid.render] returns, but its markup has no [svg] root.  In
    [part_000] the handler then shows an error block and no visual; in
    [main.ts] it shows neither. *)
Lemma render_of_markup_without_svg :
  mermaidInitialized Demo.ready = true
  /\ truthy (trim Demo.good_source) = true
  /\ parse_outcome Demo.env_bad_markup (trace Demo.ready) (trim Demo.good_source)
     = inr true
  /\ render_outcome Demo.env_bad_markup
       (trace Demo.ready ++ [mermaid_parse (trim Demo.good_source)])
       (fresh_id Demo.env_bad_markup (trace Demo.ready)) (trim Demo.good_source)
     = inr (lit "<p>")
  /\ ~ one_visual_no_error (doc Demo.ready)
        (doc (snd (renderMermaid_of Part000 Demo.env_bad_markup
                     Demo.good_source el Demo.note_ctx Demo.ready)))
  /\ ~ one_visual_no_error (doc Demo.ready)
        (doc (snd (renderMermaid_of MainTs Demo.env_bad_markup
                     Demo.good_source el Demo.note_ctx Demo.ready)))
  /\ error_blocks
       (doc (snd (renderMermaid_of Part000 Demo.env_bad_markup
                    Demo.good_source el Demo.note_ctx Demo.ready))) = 1%nat.
Proof.
  split; [reflexivity|]. split; [vm_compute; reflexivity|].
  split; [vm_compute; reflexivity|]. split; [vm_compute; reflexivity|].
  split; [|split].
  - intros [H _]. vm_compute in H. discriminate.
  - intros [H _]. vm_compute in H. discriminate.
  - vm_compute. reflexivity.
Qed.

(** ** Export as SVG *)

Lemma exportAsSVG_without_svg (env : Env) (container : Tree) (id : jsstring)
  (ctx : Context) (w : World) :
  querySelector (has_tag (lit "svg")) container = None ->
  Exporter.exportAsSVG env container id ctx w
  = (inr tt,
     log (Notice (lit "Failed to export SVG: " ++ lit "No SVG element found")) w).
Proof.
  intros H. unfold Exporter.exportAsSVG, Exporter.find_svg, try_catch, bind.
  rewrite H. reflexivity.
Qed.

Lemma exportAsSVG_with_svg (env : Env) (container : Tree) (id : jsstring)
  (ctx : Context) (w : World) (svg : Tree) :
  querySelector (has_tag (lit "svg")) container = Some svg ->
  let path := Exporter.filePath (Exporter.currentDir (sourcePath ctx))
                (svg_file_name env w) in
  let data := svg_document env svg in
  Exporter.exportAsSVG env container id ctx w
  = (inr tt,
     log (Notice
            match vault_create_outcome env (trace w) path data with
            | None => lit "SVG exported as " ++ svg_file_name env w
            | Some error => lit "Failed to export SVG: " ++ message_concat error
            end)
         (log (vault_create path data) w)).
Proof.
  intros H path data.
  unfold Exporter.exportAsSVG, Exporter.find_svg, try_catch, bind, get_trace,
    call_out, ret.
  rewrite H, or_str_empty. fold (svg_file_name env w). fold (svg_document env svg).
  fold path. fold data.
  destruct (vault_create_outcome env (trace w) path data); reflexivity.
Qed.

(** C6.  A vector export writes at most one file.  When the container
    holds a rendered [svg], the text handed to the vault is, character
    for character, the XML declaration
    [<?xml version="1.0" encoding="UTF-8"?>], a line break, the
    document-type declaration of SVG 1.1, a line break, and the
    serialization of a clone of that element (code unit 34 is the double
    quote, 10 the line break); when it holds none, nothing is written. *)
Theorem svg_export_content (env : Env) (container : Tree) (id : jsstring)
  (ctx : Context) (w : World) :
  exists w',
    Exporter.exportAsSVG env container id ctx w = (inr tt, w')
    /\ match querySelector (has_tag (lit "svg")) container with
       | Some svgElement =>
           exists path msg,
             trace w'
             = trace w
               ++ [vault_create path
                     (lit "<?xml version=" ++ [34%N] ++ lit "1.0" ++ [34%N]
                      ++ lit " encoding=" ++ [34%N] ++ lit "UTF-8" ++ [34%N]
                      ++ lit "?>" ++ [10%N]
                      ++ lit "<!DOCTYPE svg PUBLIC " ++ [34%N]
                      ++ lit "-//W3C//DTD SVG 1.1//EN" ++ [34%N] ++ lit " "
                      ++ [34%N]
                      ++ lit "http://www.w3.org/Graphics/SVG/1.1/DTD/svg11.dtd"
                      ++ [34%N] ++ lit ">" ++ [10%N]
                      ++ serializeToString env (cloneNode svgElement));
                   Notice msg]
       | None => exists msg, trace w' = trace w ++ [Notice msg]
       end.
Proof.
  destruct (querySelector (has_tag (lit "svg")) container) as [svg|] eqn:H.
  - eexists. split; [apply (exportAsSVG_with_svg env container id ctx w svg H)|].
    eexists. eexists. unfold log. cbn [trace]. rewrite <- app_assoc.
    vm_compute. reflexivity.
  - eexists. split; [apply (exportAsSVG_without_svg env container id ctx w H)|].
    eexists. reflexivity.
Qed.

(** The two declarations, spelled out. *)
Lemma svg_prolog :
  Exporter.xml_declaration
  = lit "<?xml version=" ++ [34%N] ++ lit "1.0" ++ [34%N] ++ lit " encoding="
    ++ [34%N] ++ lit "UTF-8" ++ [34%N] ++ lit "?>"
  /\ startsWith (lit "<!DOCTYPE svg PUBLIC ") Exporter.doctype = true.
Proof. split; vm_compute; reflexivity. Qed.

(** ** The destination path *)

Lemma lit_slash : lit "/" = [47%N].
Proof. vm_compute. reflexivity. Qed.

Lemma includes_slash_cons (c : N) (s : jsstring) :
  includes [47%N] (c :: s) = (47 =? c)%N || includes [47%N] s.
Proof. simpl. now rewrite andb_true_r. Qed.

Lemma lastIndexOf_from_absent (i : Z) (s : jsstring) :
  includes [47%N] s = false -> lastIndexOf_from i [47%N] s = (-1)%Z.
Proof.
  revert i. induction s as [|c s IH]; intros i H; [reflexivity|].
  rewrite includes_slash_cons in H. apply orb_false_iff in H as [Hc Hs].
  cbn [lastIndexOf_from]. rewrite (IH (i + 1)%Z Hs).
  change (0 <=? -1)%Z with false. cbn [startsWith]. now rewrite Hc.
Qed.

Lemma lastIndexOf_from_last (i : Z) (d f : jsstring) :
  (0 <= i)%Z ->
  includes [47%N] f = false ->
  lastIndexOf_from i [47%N] (d ++ 47%N :: f) = (i + Z.of_nat (List.length d))%Z.
Proof.
  intros Hi Hf. revert i Hi. induction d as [|c d IH]; intros i Hi.
  - cbn [app lastIndexOf_from List.length].
    rewrite (lastIndexOf_from_absent (i + 1) f Hf).
    change (0 <=? -1)%Z with false. cbn [startsWith Z.of_nat].
    rewrite N.eqb_refl. cbn [andb]. lia.
  - cbn [app lastIndexOf_from List.length]. rewrite (IH (i + 1)%Z) by lia.
    destruct (0 <=? i + 1 + Z.of_nat (List.length d))%Z eqn:E.
    + lia.
    + apply Z.leb_gt in E. lia.
Qed.

Lemma includes_slash_app (d f : jsstring) :
  includes [47%N] (d ++ 47%N :: f) = true.
Proof.
  induction d as [|c d IH]; cbn [app]; rewrite includes_slash_cons.
  - reflexivity.
  - rewrite IH. apply orb_true_r.
Qed.

Lemma substring_prefix (d r : jsstring) :
  substring 0 (Z.of_nat (List.length d)) (d ++ r) = d.
Proof.
  unfold substring. rewrite length_app.
  replace (Z.min (Z.max 0 0) (Z.of_nat (List.length d + List.length r))) with 0%Z by lia.
  replace (Z.min (Z.max (Z.of_nat (List.length d)) 0)
             (Z.of_nat (List.length d + List.length r)))
    with (Z.of_nat (List.length d)) by lia.
  replace (Z.min 0 (Z.of_nat (List.length d))) with 0%Z by lia.
  replace (Z.max 0 (Z.of_nat (List.length d))) with (Z.of_nat (List.length d)) by lia.
  rewrite Z.sub_0_r, Nat2Z.id. cbn [Z.to_nat skipn].
  rewrite firstn_app, Nat.sub_diag, firstn_all. cbn [firstn]. apply app_nil_r.
Qed.

(** [currentDir] is the directory of the document. *)
Lemma currentDir_directory (p dir : jsstring) :
  directory_of p dir -> Exporter.currentDir p = dir.
Proof.
  intros [q Hq | d f Hf]; unfold Exporter.currentDir; rewrite lit_slash in *.
  - now rewrite Hq.
  - cbn [app]. rewrite includes_slash_app.
    unfold lastIndexOf. rewrite (lastIndexOf_from_last 0 d f (Z.le_refl 0) Hf).
    cbn [Z.add]. apply substring_prefix.
Qed.

Lemma filePath_join (dir fileName : jsstring) :
  Exporter.filePath dir fileName = join dir fileName.
Proof. destruct dir; reflexivity. Qed.

(** ** Export as PNG *)

Lemma png_prepare_ready (env : Env) (container : Tree) (ctx : Context)
  (w : World) (svg : Tree) (encoded : jsstring) :
  querySelector (has_tag (lit "svg")) container = Some svg ->
  has_2d_context env = true ->
  encodeURIComponent env (serializeToString env svg) = inr encoded ->
  let W := chosen_size (computed_width env svg) (clientWidth env svg) 800 in
  let H := chosen_size (computed_height env svg) (clientHeight env svg) 600 in
  Exporter.png_prepare env container ctx w
  = (inr {| Exporter.job_canvas :=
              ctx_scale 2 2 (set_height (H * 2) (set_width (W * 2) new_canvas));
            Exporter.job_width := W;
            Exporter.job_height := H;
            Exporter.job_dir := Exporter.currentDir (sourcePath ctx);
            Exporter.job_uri := svg_data_uri encoded |}, w).
Proof.
  intros Hq Hc He W H.
  unfold Exporter.png_prepare, Exporter.find_svg, bind, ret.
  rewrite Hq, Hc, He, or_str_empty. reflexivity.
Qed.

(** The picture on the canvas once the white rectangle and the image are
    drawn. *)
Lemma drawn_canvas (env : Env) (img : Z -> Z -> Z -> Z -> Color) (W H : Z) :
  let canvas :=
    drawImage env img 0 0 W H
      (fillRect env 0 0 W H
         (set_fillStyle white
            (ctx_scale 2 2 (set_height (H * 2) (set_width (W * 2) new_canvas))))) in
  width canvas = (2 * W)%Z
  /\ height canvas = (2 * H)%Z
  /\ forall x y,
       (0 <= x < 2 * W)%Z -> (0 <= y < 2 * H)%Z ->
       alpha (img (2 * W) (2 * H) x y)%Z = 0%N ->
       bitmap canvas x y = white.
Proof.
  intros canvas. subst canvas.
  split; [cbn [width drawImage fillRect set_fillStyle ctx_scale set_height
               set_width]; lia|].
  split; [cbn [height drawImage fillRect set_fillStyle ctx_scale set_height
               set_width]; lia|].
  intros x y Hx Hy Ha.
  cbn [bitmap drawImage fillRect set_fillStyle ctx_scale set_height set_width
       scaleX scaleY fillStyle new_canvas].
  assert (Hin : in_rect (0 * (1 * 2)) (0 * (1 * 2)) (W * (1 * 2)) (H * (1 * 2)) x y
                = true).
  { unfold in_rect. rewrite !andb_true_iff, !Z.leb_le, !Z.ltb_lt. lia. }
  rewrite Hin.
  replace (W * (1 * 2))%Z with (2 * W)%Z by lia.
  replace (H * (1 * 2))%Z with (2 * H)%Z by lia.
  replace (x - 0 * (1 * 2))%Z with x by lia.
  replace (y - 0 * (1 * 2))%Z with y by lia.
  unfold paint at 1. rewrite Ha. reflexivity.
Qed.

(** An export that gets as far as the write. *)
Lemma exportAsPNG_writes (env : Env) (container : Tree) (id : jsstring)
  (ctx : Context) (w : World) (svg : Tree) (encoded : jsstring)
  (img : Z -> Z -> Z -> Z -> Color) :
  querySelector (has_tag (lit "svg")) container = Some svg ->
  has_2d_context env = true ->
  encodeURIComponent env (serializeToString env svg) = inr encoded ->
  image_decode env (svg_data_uri encoded) = Some img ->
  (forall b, toBlob_succeeds env b = true) ->
  let W := chosen_size (computed_width env svg) (clientWidth env svg) 800 in
  let H := chosen_size (computed_height env svg) (clientHeight env svg) 600 in
  exists bmp rest,
    trace (snd (Exporter.exportAsPNG env container id ctx w))
    = trace w
      ++ vault_createBinary
           (Exporter.filePath (Exporter.currentDir (sourcePath ctx))
              (png_file_name env w)) bmp :: rest
    /\ bwidth bmp = (2 * W)%Z
    /\ bheight bmp = (2 * H)%Z
    /\ forall x y,
         (0 <= x < 2 * W)%Z -> (0 <= y < 2 * H)%Z ->
         alpha (img (2 * W) (2 * H) x y)%Z = 0%N ->
         pixel bmp x y = white.
Proof.
  intros Hq Hc He Hi Hb W H.
  unfold Exporter.exportAsPNG.
  rewrite (png_prepare_ready env container ctx w svg encoded Hq Hc He).
  unfold Exporter.png_promise.
  cbn [Exporter.job_uri Exporter.job_canvas Exporter.job_width
       Exporter.job_height Exporter.job_dir].
  rewrite Hi, Hb. cbn [negb]. fold W H. fold (png_file_name env w).
  destruct (drawn_canvas env img W H) as (Hw & Hh & Hp).
  unfold call_out.
  match goal with
  | |- context [unit_outcome ?o] => destruct o
  end; cbn [unit_outcome snd];
    eexists; eexists;
    (split; [unfold new_Notice, log; cbn [trace snd]; rewrite <- ?app_assoc;
             reflexivity|]);
    (split; [exact Hw|]); (split; [exact Hh|]); exact Hp.
Qed.

(** C8, as the code has it.  For both export kinds the file is written to
    the document's directory (what precedes the last ['/'] of its path)
    joined by ['/'] with the generated, time-stamped file name; when that
    directory is empty, because the path has no ['/'] or has its only
    ['/'] in front, the file is written to the file name alone. *)
Theorem export_destination (env : Env) (container : Tree) (id : jsstring)
  (ctx : Context) (w : World) (dir : jsstring) (svg : Tree) :
  directory_of (sourcePath ctx) dir ->
  querySelector (has_tag (lit "svg")) container = Some svg ->
  (exists data rest,
     trace (snd (Exporter.exportAsSVG env container id ctx w))
     = trace w ++ vault_create (join dir (svg_file_name env w)) data :: rest)
  /\ (forall encoded img,
        has_2d_context env = true ->
        encodeURIComponent env (serializeToString env svg) = inr encoded ->
        image_decode env (svg_data_uri encoded) = Some img ->
        (forall b, toBlob_succeeds env b = true) ->
        exists data rest,
          trace (snd (Exporter.exportAsPNG env container id ctx w))
          = trace w ++ vault_createBinary (join dir (png_file_name env w)) data :: rest).
Proof.
  intros Hd Hq. split.
  - rewrite (exportAsSVG_with_svg env container id ctx w svg Hq).
    rewrite (currentDir_directory _ _ Hd), filePath_join.
    eexists. eexists. unfold log. cbn [snd trace]. rewrite <- app_assoc.
    reflexivity.
  - intros encoded img Hc He Hi Hb.
    destruct (exportAsPNG_writes env container id ctx w svg encoded img
                Hq Hc He Hi Hb) as (bmp & rest & E & _).
    rewrite (currentDir_directory _ _ Hd), filePath_join in E.
    exists bmp, rest. exact E.
Qed.

Lemma export_destination_witness :
  directory_of (sourcePath Demo.note_ctx) (lit "notes")
  /\ querySelector (has_tag (lit "svg")) Demo.rendered_container
     = Some Demo.svg_tree
  /\ exists data rest,
       trace (snd (Exporter.exportAsSVG Demo.env_ok Demo.rendered_container
                     Demo.diagram_id Demo.note_ctx Demo.ready))
       = trace Demo.ready
         ++ vault_create (join (lit "notes") (svg_file_name Demo.env_ok Demo.ready))
              data :: rest.
Proof.
  assert (Hd : directory_of (sourcePath Demo.note_ctx) (lit "notes")).
  { change (sourcePath Demo.note_ctx)
      with (lit "notes" ++ lit "/" ++ lit "flow.md").
    apply dir_nested. vm_compute. reflexivity. }
  assert (Hq : querySelector (has_tag (lit "svg")) Demo.rendered_container
               = Some Demo.svg_tree) by (vm_compute; reflexivity).
  split; [exact Hd|]. split; [exact Hq|].
  exact (proj1 (export_destination Demo.env_ok Demo.rendered_container
                  Demo.diagram_id Demo.note_ctx Demo.ready (lit "notes")
                  Demo.svg_tree Hd Hq)).
Defined.

(** C8 as stated fails for a document path whose only ['/'] is its first
    character: the path does contain a ['/'], the part before it is empty,
    and both exports write to the bare file name, not to ['/'] followed by
    the file name. *)
Lemma export_next_to_slash_document :
  includes (lit "/") (sourcePath Demo.slash_ctx) = true
  /\ written_paths
       (trace (snd (Exporter.exportAsSVG Demo.env_ok Demo.rendered_container
                      Demo.diagram_id Demo.slash_ctx Demo.ready)))
     = [lit "mermaid-diagram-1700000000000.svg"]
  /\ spec_destination (sourcePath Demo.slash_ctx)
       (lit "mermaid-diagram-1700000000000.svg")
     = lit "/mermaid-diagram-1700000000000.svg"
  /\ written_paths
       (trace (snd (Exporter.exportAsPNG Demo.env_ok Demo.rendered_container
                      Demo.diagram_id Demo.slash_ctx Demo.ready)))
     = [lit "mermaid-diagram-1700000000000.png"]
  /\ spec_destination (sourcePath Demo.slash_ctx)
       (lit "mermaid-diagram-1700000000000.png")
     = lit "/mermaid-diagram-1700000000000.png"
  /\ lit "mermaid-diagram-1700000000000.svg"
     <> lit "/mermaid-diagram-1700000000000.svg".
Proof.
  repeat split; try (vm_compute; reflexivity).
  vm_compute. discriminate.
Qed.

(** The size the export settles on: the integer [parseInt] reads from the
    computed style when that is a number other than zero, else the client
    size when that is not zero, else the default. *)
Lemma chosen_size_cases (computed : jsstring) (client dflt : Z) :
  chosen_size computed client dflt
  = match parseInt computed with
    | Some n =>
        if (n =? 0)%Z then (if (client =? 0)%Z then dflt else client) else n
    | None => if (client =? 0)%Z then dflt else client
    end.
Proof.
  unfold chosen_size, or_num.
  destruct (parseInt computed) as [n|]; [destruct (n =? 0)%Z eqn:E|];
    try reflexivity.
  now rewrite E.
Qed.

(** C7, as the code has it.  A raster export that gets as far as drawing
    writes an image whose width and height are exactly twice the size the
    code settles on for each axis (see [chosen_size_cases]; the defaults
    are 800 and 600), and in which every pixel the drawn visual leaves
    uncovered is opaque white. *)
Theorem png_export_image (env : Env) (container : Tree) (id : jsstring)
  (ctx : Context) (w : World) (svg : Tree) (encoded : jsstring)
  (img : Z -> Z -> Z -> Z -> Color) :
  querySelector (has_tag (lit "svg")) container = Some svg ->
  has_2d_context env = true ->
  encodeURIComponent env (serializeToString env svg) = inr encoded ->
  image_decode env (svg_data_uri encoded) = Some img ->
  (forall b, toBlob_succeeds env b = true) ->
  let W := chosen_size (computed_width env svg) (clientWidth env svg) 800 in
  let H := chosen_size (computed_height env svg) (clientHeight env svg) 600 in
  exists path bmp rest,
    trace (snd (Exporter.exportAsPNG env container id ctx w))
    = trace w ++ vault_createBinary path bmp :: rest
    /\ bwidth bmp = (2 * W)%Z
    /\ bheight bmp = (2 * H)%Z
    /\ forall x y,
         (0 <= x < bwidth bmp)%Z -> (0 <= y < bheight bmp)%Z ->
         alpha (img (2 * W) (2 * H) x y)%Z = 0%N ->
         pixel bmp x y = white.
Proof.
  intros Hq Hc He Hi Hb W H.
  destruct (exportAsPNG_writes env container id ctx w svg encoded img
              Hq Hc He Hi Hb) as (bmp & rest & E & Hw & Hh & Hp).
  eexists. exists bmp, rest. split; [exact E|]. split; [exact Hw|].
  split; [exact Hh|]. intros x y Hx Hy. rewrite Hw in Hx. rewrite Hh in Hy.
  now apply Hp.
Qed.

Lemma png_export_image_witness :
  querySelector (has_tag (lit "svg")) Demo.rendered_container = Some Demo.svg_tree
  /\ chosen_size (computed_width Demo.env_ok Demo.svg_tree)
       (clientWidth Demo.env_ok Demo.svg_tree) 800 = 400%Z
  /\ exists path bmp rest,
       trace (snd (Exporter.exportAsPNG Demo.env_ok Demo.rendered_container
                     Demo.diagram_id Demo.note_ctx Demo.ready))
       = trace Demo.ready ++ vault_createBinary path bmp :: rest
       /\ bwidth bmp = 800%Z
       /\ bheight bmp = 600%Z
       /\ pixel bmp 0 0 = white.
Proof.
  split; [vm_compute; reflexivity|]. split; [vm_compute; reflexivity|].
  destruct (png_export_image Demo.env_ok Demo.rendered_container Demo.diagram_id
              Demo.note_ctx Demo.ready Demo.svg_tree
              (Demo.serialize Demo.svg_tree) (fun _ _ _ _ => transparent))
    as (path & bmp & rest & E & Hw & Hh & Hp);
    try (vm_compute; reflexivity).
  exists path, bmp, rest. split; [exact E|].
  split; [rewrite Hw; vm_compute; reflexivity|].
  split; [rewrite Hh; vm_compute; reflexivity|].
  apply Hp; [rewrite Hw | rewrite Hh | reflexivity]; vm_compute;
    split; congruence.
Defined.

(** C7 as stated fails for a visual that is laid out with no extent: the
    computed size and the client size are both zero, and the image written
    is 1600 by 1200, not 0 by 0. *)
Lemma png_of_visual_without_extent :
  parseInt (computed_width Demo.env_zero_size Demo.svg_tree) = Some 0%Z
  /\ clientWidth Demo.env_zero_size Demo.svg_tree = 0%Z
  /\ parseInt (computed_height Demo.env_zero_size Demo.svg_tree) = Some 0%Z
  /\ clientHeight Demo.env_zero_size Demo.svg_tree = 0%Z
  /\ List.map (fun b => (bwidth b, bheight b))
       (written_images
          (trace (snd (Exporter.exportAsPNG Demo.env_zero_size
                         Demo.rendered_container Demo.diagram_id Demo.note_ctx
                         Demo.ready))))
     = [(1600%Z, 1200%Z)]
  /\ (1600%Z, 1200%Z) <> ((2 * 0)%Z, (2 * 0)%Z).
Proof.
  repeat split; try (vm_compute; reflexivity). vm_compute. discriminate.
Qed.

(** ** Failures of an export *)

(** Every failure of the vector export ends in a notice: the promise
    fulfils, and the flag and the document are as before. *)
Lemma exportAsSVG_contained (env : Env) (container : Tree) (id : jsstring)
  (ctx : Context) (w : World) :
  exists w',
    Exporter.exportAsSVG env container id ctx w = (inr tt, w')
    /\ mermaidInitialized w' = mermaidInitialized w
    /\ doc w' = doc w
    /\ exists msg, last (trace w') (Notice []) = Notice msg.
Proof.
  destruct (querySelector (has_tag (lit "svg")) container) as [svg|] eqn:H.
  - rewrite (exportAsSVG_with_svg env container id ctx w svg H).
    eexists. split; [reflexivity|]. split; [reflexivity|]. split; [reflexivity|].
    eexists. unfold log. cbn [trace]. apply last_last.
  - rewrite (exportAsSVG_without_svg env container id ctx w H).
    eexists. split; [reflexivity|]. split; [reflexivity|]. split; [reflexivity|].
    eexists. unfold log. cbn [trace]. apply last_last.
Qed.

(** The failures of the raster export that happen before the promise is
    made are caught the same way. *)
Lemma exportAsPNG_caught_early (env : Env) (container : Tree) (id : jsstring)
  (ctx : Context) (w : World) :
  querySelector (has_tag (lit "svg")) container = None
  \/ has_2d_context env = false ->
  exists msg,
    Exporter.exportAsPNG env container id ctx w
    = (Fulfilled, log (Notice (lit "Failed to export PNG: " ++ msg)) w).
Proof.
  unfold Exporter.exportAsPNG, Exporter.png_prepare, Exporter.find_svg, bind.
  intros [H | H].
  - rewrite H. eexists. reflexivity.
  - destruct (querySelector (has_tag (lit "svg")) container);
      [rewrite H|]; eexists; reflexivity.
Qed.

(** C1 fails in [exportAsPNG].  When the image does not load, the promise
    the function returns is rejected and no notice is shown; when the
    vault refuses the write, the promise never settles and no notice is
    shown either.  ([exportAsSVG] handles the same failures: see
    [exportAsSVG_contained].) *)
Theorem png_export_failure_escapes :
  Exporter.exportAsPNG Demo.env_no_image Demo.rendered_container
    Demo.diagram_id Demo.note_ctx Demo.ready
  = (Rejected (Error (lit "Failed to load SVG image")), Demo.ready)
  /\ fst (Exporter.exportAsPNG Demo.env_no_write Demo.rendered_container
            Demo.diagram_id Demo.note_ctx Demo.ready) = Pending
  /\ notices
       (trace (snd (Exporter.exportAsPNG Demo.env_no_write
                      Demo.rendered_container Demo.diagram_id Demo.note_ctx
                      Demo.ready))) = []
  /\ written_paths
       (trace (snd (Exporter.exportAsPNG Demo.env_no_write
                      Demo.rendered_container Demo.diagram_id Demo.note_ctx
                      Demo.ready)))
     = [lit "notes/mermaid-diagram-1700000000000.png"].
Proof. repeat split; vm_compute; reflexivity. Qed.

(* ================================================================== *)
(** * Further properties of the code *)

(** ** Every way an attempt can end *)

Lemma props_update_queried (sel : Props -> bool) (f : Props -> Props) (t : Tree) :
  props (update_queried sel f t) = props t.
Proof.
  unfold update_queried. destruct (update_first_among sel f (children t)); reflexivity.
Qed.

(** The attempt, case by case: where it stops, which calls it has made by
    then, and what it leaves under the output element. *)
Lemma render_try_outcome (rev : Revision) (env : Env) (source : jsstring)
  (ctx : Context) (w : World) :
  let text := trim source in
  let id := fresh_id env (trace w) in
  exists r c calls,
    render_try_of rev env source el ctx w
    = (r, {| mermaidInitialized := mermaidInitialized w;
             doc := appendChild c (doc w);
             trace := trace w ++ calls |})
    /\ classList (props c) = [lit "mermaid-container"]
    /\ (r <> inr tt -> c = empty_container)
    /\ ((calls = [] /\ truthy text = false
         /\ r = inl (Error (lit "Empty Mermaid diagram")))
        \/ (calls = [mermaid_parse text] /\ truthy text = true
            /\ ((exists e, parse_outcome env (trace w) text = inl e /\ r = inl e)
                \/ (parse_outcome env (trace w) text = inr false
                    /\ r = inl (Error (lit "Invalid Mermaid syntax")))))
        \/ (calls = [mermaid_parse text; mermaid_render id text]
            /\ truthy text = true
            /\ parse_outcome env (trace w) text = inr true
            /\ ((exists e,
                   render_outcome env (trace w ++ [mermaid_parse text]) id text
                   = inl e /\ r = inl e)
                \/ (exists markup,
                      render_outcome env (trace w ++ [mermaid_parse text]) id text
                      = inr markup
                      /\ (r = inr tt
                          \/ (rev = Part000
                              /\ has_tag (lit "svg")
                                   (props (parseFromString env markup)) = false
                              /\ r = inl (Error (lit "Failed to render SVG element")))))))).
Proof.
  intros text id. subst text id.
  destruct rev; open_render_try;
    (destruct (truthy (trim source)) eqn:Ht; world;
     [ destruct (parse_outcome env (trace w) (trim source)) as [e0|[|]] eqn:Hp; world;
       [ | destruct (render_outcome env (trace w ++ [mermaid_parse (trim source)])
                       (fresh_id env (trace w)) (trim source)) as [e1|svg] eqn:Hr;
           world | ] | ]).
  all: try (exists (@inl Thrown unit (Error (lit "Empty Mermaid diagram"))),
                   empty_container, [];
            rewrite app_nil_r;
            split; [reflexivity|]; split; [reflexivity|]; split; [reflexivity|];
            left; repeat split; reflexivity).
  all: try (eexists; exists empty_container, [mermaid_parse (trim source)];
            split; [reflexivity|]; split; [reflexivity|]; split; [reflexivity|];
            right; left; repeat split; eauto; fail).
  all: try (eexists; exists empty_container,
              [mermaid_parse (trim source);
               mermaid_render (fresh_id env (trace w)) (trim source)];
            rewrite <- app_assoc;
            split; [reflexivity|]; split; [reflexivity|]; split; [reflexivity|];
            right; right; repeat split; eauto; fail).
  - repeat (rewrite modify_in_last_of; in_tree).
    unfold main_ts.addExportFunctionality, bind.
    rewrite createEl_in_last_of. in_tree.
    repeat (rewrite modify_in_last_of; in_tree).
    exists (inr tt). eexists.
    exists [mermaid_parse (trim source);
            mermaid_render (fresh_id env (trace w)) (trim source)].
    rewrite <- app_assoc.
    split; [reflexivity|].
    split; [cbn [props classList addEventListener set_style];
            rewrite props_update_queried; reflexivity|].
    split; [intros H; now elim H|].
    right; right; repeat split; eauto.
  - destruct (has_tag (lit "svg") (props (parseFromString env svg))) eqn:Hs.
    + rewrite modify_in_last_of. in_tree.
      unfold part_000.addExportFunctionality, bind. rewrite query_in_last_of.
      destruct (querySelector _ _).
      * exists (inr tt). eexists.
        exists [mermaid_parse (trim source);
                mermaid_render (fresh_id env (trace w)) (trim source)].
        rewrite <- app_assoc.
        split; [reflexivity|]. split; [reflexivity|].
        split; [intros H; now elim H|].
        right; right; repeat split; eauto.
      * rewrite createEl_in_last_of. in_tree.
        repeat (rewrite modify_in_last_of; in_tree).
        exists (inr tt). eexists.
        exists [mermaid_parse (trim source);
                mermaid_render (fresh_id env (trace w)) (trim source)].
        rewrite <- app_assoc.
        split; [reflexivity|]. split; [reflexivity|].
        split; [intros H; now elim H|].
        right; right; repeat split; eauto.
    + eexists; exists empty_container,
        [mermaid_parse (trim source);
         mermaid_render (fresh_id env (trace w)) (trim source)].
      rewrite <- app_assoc.
      split; [reflexivity|]. split; [reflexivity|]. split; [reflexivity|].
      right; right; repeat split; eauto 10.
Qed.

(** The handler is the attempt with its [catch], run on a state in which
    the library is ready, unless initialization fails once more. *)
Lemma render_split (rev : Revision) (env : Env) (source : jsstring)
  (ctx : Context) (w : World) :
  let init := mermaid_initialize (config_of rev env) in
  (exists e,
     mermaidInitialized w = false
     /\ initialize_outcome env (trace w) (config_of rev env) = Some e
     /\ renderMermaid_of rev env source el ctx w
        = (inr tt, {| mermaidInitialized := false;
                      doc := appendChild not_ready_block (doc w);
                      trace := trace w ++ [init] |}))
  \/ (exists pre,
        ((pre = [] /\ mermaidInitialized w = true)
         \/ (pre = [init] /\ mermaidInitialized w = false
             /\ initialize_outcome env (trace w) (config_of rev env) = None))
        /\ renderMermaid_of rev env source el ctx w
           = try_catch (render_try_of rev env source el ctx) (show_error source el)
               {| mermaidInitialized := true; doc := doc w;
                  trace := trace w ++ pre |}).
Proof.
  intros init. destruct (mermaidInitialized w) eqn:Hr.
  - right. exists []. split; [left; auto|].
    rewrite (render_when_ready rev env source ctx w Hr), app_nil_r.
    destruct w; cbn in *; now subst.
  - destruct (initialize_outcome env (trace w) (config_of rev env)) as [e|] eqn:Ho.
    + left. exists e. split; [reflexivity|]. split; [reflexivity|].
      rewrite (render_not_ready rev env source ctx w e Hr Ho).
      unfold set_doc, log. cbn. now rewrite Hr.
    + right. exists [init]. split; [right; auto|].
      now rewrite (render_after_initializing rev env source ctx w Hr Ho).
Qed.



(** X2.  The library is asked to draw only what it has just accepted: a
    render attempt calls [mermaid.render] at most once, on the trimmed,
    non-empty text, and only right after a call of [mermaid.parse] on that
    same text that returned a truthy result. *)
Theorem render_asks_before_it_draws (rev : Revision) (env : Env)
  (source : jsstring) (ctx : Context) (w : World) :
  exists calls w',
    renderMermaid_of rev env source el ctx w = (inr tt, w')
    /\ trace w' = trace w ++ calls
    /\ (List.length (filter is_mermaid_render calls) <= 1)%nat
    /\ forall id text,
         In (mermaid_render id text) calls ->
         text = trim source
         /\ truthy text = true
         /\ exists before,
              calls = before ++ [mermaid_parse text; mermaid_render id text]
              /\ parse_outcome env (trace w ++ before) text = inr true.
Proof.
  destruct (render_split rev env source ctx w)
    as [(e & _ & _ & E) | (pre & Hpre & E)].
  - exists [mermaid_initialize (config_of rev env)]. eexists.
    split; [exact E|]. split; [reflexivity|]. split; [simpl; lia|].
    intros id text [H|[]]. discriminate.
  - set (w0 := {| mermaidInitialized := true; doc := doc w;
                  trace := trace w ++ pre |}) in *.
    destruct (render_try_outcome rev env source ctx w0)
      as (r & c & calls & Et & _ & _ & Hcases).
    assert (Ecaught :
              exists w', try_catch (render_try_of rev env source el ctx)
                           (show_error source el) w0 = (inr tt, w')
                         /\ trace w' = trace w ++ pre ++ calls).
    { unfold try_catch. rewrite Et. destruct r as [e|[]].
      - rewrite show_error_appends. eexists. split; [reflexivity|].
        cbn. now rewrite app_assoc.
      - eexists. split; [reflexivity|]. cbn. now rewrite app_assoc. }
    destruct Ecaught as (w' & Ec & Htr). rewrite Ec in E.
    exists (pre ++ calls), w'. split; [exact E|]. split; [exact Htr|].
    assert (Hno : forall id text, ~ In (mermaid_render id text) pre).
    { intros id text H.
      destruct Hpre as [[-> _] | [-> _]]; [destruct H|].
      destruct H as [H|[]]. discriminate. }
    assert (Hfilter : filter is_mermaid_render pre = []).
    { destruct Hpre as [[-> _] | [-> _]]; reflexivity. }
    split.
    + rewrite filter_app, Hfilter.
      destruct Hcases as [(-> & _) | [(-> & _) | (-> & _)]]; simpl; lia.
    + intros id text Hin. apply in_app_or in Hin as [Hin|Hin];
        [elim (Hno _ _ Hin)|].
      destruct Hcases as [(-> & _) | [(-> & _) | (-> & Ht & Hp & _)]].
      * destruct Hin.
      * destruct Hin as [H|[]]. discriminate.
      * destruct Hin as [H|[H|[]]]; [discriminate|].
        injection H as <- <-. split; [reflexivity|]. split; [exact Ht|].
        exists pre. split; [reflexivity|]. exact Hp.
Qed.

(** X3.  The error an attempt ends with tells its cause, both ways.  A
    blank text always ends it with "Empty Mermaid diagram", before any
    call to the library; a falsy [mermaid.parse] result always with
    "Invalid Mermaid syntax"; an error thrown by [mermaid.parse], or by
    [mermaid.render] once the text is accepted, always ends it with that
    very error; in [part_000] accepted text whose markup has no [svg]
    root always ends it with "Failed to render SVG element".  And an
    attempt fails in no other way. *)
Theorem render_failure_causes (rev : Revision) (env : Env) (source : jsstring)
  (ctx : Context) (w : World) (e : Thrown) :
  ((exists w1, render_try_of rev env source el ctx w = (inl e, w1))
   <->
   ((truthy (trim source) = false /\ e = Error (lit "Empty Mermaid diagram"))
    \/ (truthy (trim source) = true
        /\ parse_outcome env (trace w) (trim source) = inr false
        /\ e = Error (lit "Invalid Mermaid syntax"))
    \/ (truthy (trim source) = true
        /\ parse_outcome env (trace w) (trim source) = inl e)
    \/ (truthy (trim source) = true
        /\ parse_outcome env (trace w) (trim source) = inr true
        /\ render_outcome env (trace w ++ [mermaid_parse (trim source)])
             (fresh_id env (trace w)) (trim source) = inl e)
    \/ (rev = Part000
        /\ truthy (trim source) = true
        /\ parse_outcome env (trace w) (trim source) = inr true
        /\ (exists markup,
              render_outcome env (trace w ++ [mermaid_parse (trim source)])
                (fresh_id env (trace w)) (trim source) = inr markup
              /\ has_tag (lit "svg") (props (parseFromString env markup))
                 = false)
        /\ e = Error (lit "Failed to render SVG element"))))
  /\ (truthy (trim source) = false ->
      render_try_of rev env source el ctx w
      = (inl (Error (lit "Empty Mermaid diagram")),
         {| mermaidInitialized := mermaidInitialized w;
            doc := appendChild empty_container (doc w);
            trace := trace w |})).
Proof.
  split; [split|].
  - intros [w1 Hf].
    destruct (render_try_outcome rev env source ctx w)
      as (r & c & calls & E & _ & _ & Hcases).
    rewrite Hf in E. injection E as <- ->.
    destruct Hcases as [(-> & Ht & He) | [(_ & Ht & Hc) | (_ & Ht & Hp & Hc)]].
    + left. injection He as ->. auto.
    + destruct Hc as [(e' & Hp & He) | (Hp & He)].
      * right; right; left. injection He as ->. auto.
      * right; left. injection He as ->. auto.
    + destruct Hc as [(e' & Hr & He) | (markup & Hr & [He | (Hrev & Hs & He)])].
      * right; right; right; left. injection He as ->. auto.
      * discriminate.
      * right; right; right; right. injection He as ->.
        split; [exact Hrev|]. split; [exact Ht|]. split; [exact Hp|].
        split; [eauto | reflexivity].
  - intros Hcause.
    destruct (render_try_fails_when rev env source ctx w e Hcause)
      as (calls & Hf & _).
    eexists. exact Hf.
  - intros Ht.
    destruct (render_try_fails_when rev env source ctx w
                (Error (lit "Empty Mermaid diagram")) (or_introl (conj Ht eq_refl)))
      as (calls & Hf & Hnone).
    rewrite Hf, (Hnone Ht), app_nil_r. reflexivity.
Qed.

Lemma render_failure_causes_witness :
  (truthy (trim (lit "  ")) = false
   /\ render_try_of Part000 Demo.env_ok (lit "  ") el Demo.note_ctx Demo.ready
      = (inl (Error (lit "Empty Mermaid diagram")),
         {| mermaidInitialized := mermaidInitialized Demo.ready;
            doc := appendChild empty_container (doc Demo.ready);
            trace := trace Demo.ready |}))
  /\ (parse_outcome Demo.env_rejecting (trace Demo.ready) (trim Demo.bad_source)
      = inr false
      /\ exists w1,
           render_try_of MainTs Demo.env_rejecting Demo.bad_source el
             Demo.note_ctx Demo.ready
           = (inl (Error (lit "Invalid Mermaid syntax")), w1)).
Proof.
  split.
  - assert (Ht : truthy (trim (lit "  ")) = false) by (vm_compute; reflexivity).
    split; [exact Ht|].
    exact (proj2 (render_failure_causes Part000 Demo.env_ok (lit "  ")
                    Demo.note_ctx Demo.ready
                    (Error (lit "Empty Mermaid diagram"))) Ht).
  - assert (Hp : parse_outcome Demo.env_rejecting (trace Demo.ready)
                   (trim Demo.bad_source) = inr false)
      by (vm_compute; reflexivity).
    split; [exact Hp|].
    apply (proj2 (proj1 (render_failure_causes MainTs Demo.env_rejecting
                           Demo.bad_source Demo.note_ctx Demo.ready
                           (Error (lit "Invalid Mermaid syntax"))))).
    right; left. split; [vm_compute; reflexivity|]. split; [exact Hp|reflexivity].
Defined.

(** ** One block after another *)

Lemma render_step (rev : Revision) (env : Env) (source : jsstring)
  (ctx : Context) (w : World) :
  mermaidInitialized w = true
  \/ initialize_outcome env (trace w) (config_of rev env) = None ->
  let w' := snd (renderMermaid_of rev env source el ctx w) in
  mermaidInitialized w' = true
  /\ initialize_calls w'
     = (initialize_calls w + if mermaidInitialized w then 0 else 1)%nat.
Proof.
  intros Hw w'. subst w'.
  destruct (render_split rev env source ctx w)
    as [(e & Hr & Ho & _) | (pre & Hpre & E)].
  - destruct Hw; congruence.
  - rewrite E. clear E.
    set (w0 := {| mermaidInitialized := true; doc := doc w;
                  trace := trace w ++ pre |}).
    destruct (render_try_outcome rev env source ctx w0)
      as (r & c & calls & Et & _ & _ & Hcases).
    assert (Hcalls : filter is_mermaid_initialize calls = []).
    { destruct Hcases as [(-> & _) | [(-> & _) | (-> & _)]]; reflexivity. }
    assert (Hend : exists d,
               snd (try_catch (render_try_of rev env source el ctx)
                      (show_error source el) w0)
               = {| mermaidInitialized := true; doc := d;
                    trace := (trace w ++ pre) ++ calls |}).
    { unfold try_catch. rewrite Et. destruct r as [e|[]].
      - rewrite show_error_appends. eexists. reflexivity.
      - eexists. reflexivity. }
    destruct Hend as [d ->]. split; [reflexivity|].
    unfold initialize_calls. cbn [trace].
    rewrite !filter_app, !length_app, Hcalls.
    destruct Hpre as [(-> & ->) | (-> & -> & _)]; simpl; lia.
Qed.

(** X4.  The library is configured once for all blocks: rendering any
    number of blocks one after another, with the library ready or able to
    initialize at the first of them, ends with the flag set and with no
    call of [mermaid.initialize] beyond that first one. *)
Theorem blocks_share_one_initialization (rev : Revision) (env : Env)
  (blocks : list (jsstring * Context)) (w : World) :
  mermaidInitialized w = true
  \/ (initialize_outcome env (trace w) (config_of rev env) = None
      /\ blocks <> []) ->
  let w' := render_each rev env blocks w in
  mermaidInitialized w' = true
  /\ initialize_calls w'
     = (initialize_calls w + if mermaidInitialized w then 0 else 1)%nat.
Proof.
  intros Hw w'. subst w'.
  assert (Hready : forall bs v, mermaidInitialized v = true ->
            mermaidInitialized (render_each rev env bs v) = true
            /\ initialize_calls (render_each rev env bs v) = initialize_calls v).
  { induction bs as [|[source ctx] bs IH]; intros v Hv; [auto|].
    cbn [render_each].
    destruct (render_step rev env source ctx v (or_introl Hv)) as [H1 H2].
    destruct (IH _ H1) as [H3 H4]. split; [exact H3|].
    rewrite H4, H2, Hv. lia. }
  destruct Hw as [Hw | [Ho Hne]].
  - destruct (Hready blocks w Hw) as [H1 H2]. rewrite Hw, H2. split; [exact H1|lia].
  - destruct blocks as [|[source ctx] bs]; [now elim Hne|].
    cbn [render_each].
    destruct (render_step rev env source ctx w (or_intror Ho)) as [H1 H2].
    destruct (Hready bs _ H1) as [H3 H4]. split; [exact H3|].
    now rewrite H4, H2.
Qed.

Lemma blocks_share_one_initialization_witness :
  initialize_outcome Demo.env_ok (trace Demo.fresh) (config_of Part000 Demo.env_ok)
  = None
  /\ mermaidInitialized
       (render_each Part000 Demo.env_ok
          [(Demo.good_source, Demo.note_ctx); (Demo.bad_source, Demo.note_ctx);
           (Demo.good_source, Demo.slash_ctx)] Demo.fresh) = true
  /\ initialize_calls
       (render_each Part000 Demo.env_ok
          [(Demo.good_source, Demo.note_ctx); (Demo.bad_source, Demo.note_ctx);
           (Demo.good_source, Demo.slash_ctx)] Demo.fresh) = 1%nat.
Proof.
  split; [reflexivity|].
  apply (blocks_share_one_initialization Part000 Demo.env_ok
           [(Demo.good_source, Demo.note_ctx); (Demo.bad_source, Demo.note_ctx);
            (Demo.good_source, Demo.slash_ctx)] Demo.fresh).
  right. split; [reflexivity | discriminate].
Defined.

(** ** The export button *)

Lemma nth_error_update_nth (i : nat) (f : Tree -> Tree) (l : list Tree) :
  nth_error (update_nth i f l) i = option_map f (nth_error l i).
Proof.
  revert i. induction l as [|x l IH]; intros [|i]; simpl; auto.
Qed.

Lemma node_at_update_at (h : handle) (f : Tree -> Tree) (t : Tree) :
  node_at h (update_at h f t) = option_map f (node_at h t).
Proof.
  revert t. induction h as [|i h IH]; intros t; [reflexivity|].
  cbn [node_at update_at children]. rewrite nth_error_update_nth.
  destruct (nth_error (children t) i); cbn [option_map]; [apply IH | reflexivity].
Qed.

Lemma node_at_app (h h' : handle) (t : Tree) :
  node_at (h ++ h') t
  = match node_at h t with Some x => node_at h' x | None => None end.
Proof.
  revert t. induction h as [|i h IH]; intros t; [reflexivity|].
  cbn [app node_at]. destruct (nth_error (children t) i); [apply IH | reflexivity].
Qed.

Lemma update_at_app (h h' : handle) (f : Tree -> Tree) (t : Tree) :
  update_at (h ++ h') f t = update_at h (update_at h' f) t.
Proof.
  revert t. induction h as [|i h IH]; intros t; [reflexivity|].
  cbn [app update_at]. f_equal.
  generalize (children t) as l. clear t. revert i.
  induction i as [|i IHi]; intros [|x l]; cbn [update_nth]; try reflexivity.
  - now rewrite IH.
  - now rewrite IHi.
Qed.

(** What the element behind a handle becomes under the three ways the
    plugin mutates the tree. *)
Lemma createEl_at (h : handle) (tag text : jsstring) (cls : list jsstring)
  (w : World) (c : Tree) :
  node_at h (doc w) = Some c ->
  exists w',
    createEl h tag text cls w = (inr (h ++ [List.length (children c)]), w')
    /\ node_at h (doc w') = Some (appendChild (new_element tag text cls) c)
    /\ mermaidInitialized w' = mermaidInitialized w /\ trace w' = trace w.
Proof.
  intros H. unfold createEl. rewrite H. eexists. split; [reflexivity|].
  cbn [doc set_doc]. rewrite node_at_update_at, H. auto.
Qed.

Lemma modify_at_self (h : handle) (f : Tree -> Tree) (w : World) (c : Tree) :
  node_at h (doc w) = Some c ->
  exists w',
    modify_at h f w = (inr tt, w')
    /\ node_at h (doc w') = Some (f c)
    /\ mermaidInitialized w' = mermaidInitialized w /\ trace w' = trace w.
Proof.
  intros H. eexists. split; [reflexivity|]. cbn [doc set_doc].
  rewrite node_at_update_at, H. auto.
Qed.

Lemma modify_at_child (h : handle) (n : nat) (f : Tree -> Tree) (w : World)
  (c : Tree) :
  node_at h (doc w) = Some c ->
  exists w',
    modify_at (h ++ [n]) f w = (inr tt, w')
    /\ node_at h (doc w') = Some (update_at [n] f c)
    /\ mermaidInitialized w' = mermaidInitialized w /\ trace w' = trace w.
Proof.
  intros H. eexists. split; [reflexivity|]. cbn [doc set_doc].
  rewrite update_at_app, node_at_update_at, H. auto.
Qed.

Lemma first_among_snoc (sel : Props -> bool) (ks : list Tree) (x : Tree) :
  sel (props x) = true -> first_among sel (ks ++ [x]) <> None.
Proof.
  intros Hx. induction ks as [|k ks IH]; cbn [app first_among].
  - destruct x as [p kids]. cbn [first_match props] in *. rewrite Hx. discriminate.
  - destruct (first_match sel k); [discriminate | exact IH].
Qed.

Lemma part_000_button_added (h : handle) (id : jsstring) (ctx : Context)
  (w : World) (c : Tree) :
  node_at h (doc w) = Some c ->
  exists w',
    part_000.addExportFunctionality h id ctx w = (inr tt, w')
    /\ mermaidInitialized w' = mermaidInitialized w
    /\ trace w' = trace w
    /\ match querySelector is_export_button c with
       | Some _ => w' = w
       | None =>
           exists b,
             node_at h (doc w') = Some (Elem (props c) (children c ++ [b]))
             /\ is_export_button (props b) = true
             /\ has_tag (lit "button") (props b) = true
             /\ children b = []
             /\ listeners (props b)
                = [(lit "click", OpenExportMenu id (sourcePath ctx))]
       end.
Proof.
  intros H. unfold part_000.addExportFunctionality, bind, query_at. rewrite H.
  change (querySelector is_export_button c)
    with (querySelector (has_class (lit "mermaid-export-btn")) c).
  destruct (querySelector (has_class (lit "mermaid-export-btn")) c).
  - exists w. repeat split.
  - unfold createEl. rewrite H. eexists. split; [reflexivity|].
    split; [reflexivity|]. split; [reflexivity|].
    cbn [doc set_doc].
    rewrite !update_at_app, !node_at_update_at, H. cbn [option_map].
    in_tree. rewrite !update_nth_snoc. in_tree.
    eexists. split; [reflexivity|]. repeat split.
Qed.

Lemma main_ts_button_added (h : handle) (id : jsstring) (ctx : Context)
  (w : World) (c : Tree) :
  node_at h (doc w) = Some c ->
  exists w' p b,
    main_ts.addExportFunctionality h id ctx w = (inr tt, w')
    /\ mermaidInitialized w' = mermaidInitialized w
    /\ trace w' = trace w
    /\ node_at h (doc w') = Some (Elem p (children c ++ [b]))
    /\ classList p = classList (props c)
    /\ is_export_button (props b) = true
    /\ has_tag (lit "button") (props b) = true
    /\ children b = []
    /\ listeners (props b) = [(lit "click", OpenExportMenu id (sourcePath ctx))].
Proof.
  intros H. unfold main_ts.addExportFunctionality, bind, createEl. rewrite H.
  eexists. eexists. eexists. split; [reflexivity|].
  split; [reflexivity|]. split; [reflexivity|].
  cbn [doc set_doc modify_at modify_doc fst snd].
  rewrite !update_at_app, !node_at_update_at, H. cbn [option_map].
  in_tree. rewrite !update_nth_snoc. in_tree.
  split; [reflexivity|]. repeat split.
Qed.

(** X5.  In [part_000] an element gets the export button once: where a
    button is already somewhere inside it, [addExportFunctionality]
    changes nothing; where none is, it appends one button, after which a
    further call, for whatever diagram, changes nothing. *)
Theorem part_000_adds_the_button_once (h : handle) (id id' : jsstring)
  (ctx ctx' : Context) (w : World) (c : Tree) :
  node_at h (doc w) = Some c ->
  let w1 := snd (part_000.addExportFunctionality h id ctx w) in
  part_000.addExportFunctionality h id' ctx' w1 = (inr tt, w1)
  /\ (querySelector is_export_button c <> None -> w1 = w)
  /\ (querySelector is_export_button c = None ->
      exists b,
        node_at h (doc w1) = Some (Elem (props c) (children c ++ [b]))
        /\ is_export_button (props b) = true
        /\ listeners (props b)
           = [(lit "click", OpenExportMenu id (sourcePath ctx))]).
Proof.
  intros H w1. subst w1.
  destruct (part_000_button_added h id ctx w c H) as (w' & E & _ & _ & Hq).
  rewrite E. cbn [snd].
  destruct (querySelector is_export_button c) as [x|] eqn:Hc.
  - subst w'. split; [|split; [reflexivity | discriminate]].
    destruct (part_000_button_added h id' ctx' w c H) as (w' & E' & _ & _ & Hq').
    rewrite Hc in Hq'. now subst w'.
  - destruct Hq as (b & Hn & Hb & _ & _ & Hl).
    split; [|split; [intros Hx; now elim Hx | eauto]].
    destruct (part_000_button_added h id' ctx' w' _ Hn) as (w'' & E' & _ & _ & Hq').
    destruct (querySelector is_export_button (Elem (props c) (children c ++ [b])))
      eqn:Hc'.
    + now subst w''.
    + exfalso. unfold querySelector in Hc'. cbn [children] in Hc'.
      exact (first_among_snoc is_export_button (children c) b Hb Hc').
Qed.

Lemma part_000_adds_the_button_once_witness :
  node_at [0%nat] (appendChild (Elem (props empty_container) [Demo.svg_tree])
                     Demo.output_element)
  = Some (Elem (props empty_container) [Demo.svg_tree])
  /\ exists w1,
       w1 = snd (part_000.addExportFunctionality [0%nat] Demo.diagram_id
                   Demo.note_ctx
                   {| mermaidInitialized := true;
                      doc := appendChild
                               (Elem (props empty_container) [Demo.svg_tree])
                               Demo.output_element;
                      trace := [] |})
       /\ part_000.addExportFunctionality [0%nat] Demo.diagram_id Demo.slash_ctx w1
          = (inr tt, w1).
Proof.
  split; [reflexivity|]. eexists. split; [reflexivity|].
  apply (part_000_adds_the_button_once [0%nat] Demo.diagram_id Demo.diagram_id
           Demo.note_ctx Demo.slash_ctx
           {| mermaidInitialized := true;
              doc := appendChild (Elem (props empty_container) [Demo.svg_tree])
                       Demo.output_element;
              trace := [] |}
           (Elem (props empty_container) [Demo.svg_tree]) eq_refl).
Defined.

(** X6.  In [main.ts] nothing guards the button: every call of
    [addExportFunctionality] appends one more, so two calls on the same
    element leave it with two export buttons at its end. *)
Theorem main_ts_adds_a_button_each_time (h : handle) (id id' : jsstring)
  (ctx ctx' : Context) (w : World) (c : Tree) :
  node_at h (doc w) = Some c ->
  let w2 := snd (main_ts.addExportFunctionality h id' ctx'
                   (snd (main_ts.addExportFunctionality h id ctx w))) in
  exists p b b',
    node_at h (doc w2) = Some (Elem p (children c ++ [b; b']))
    /\ is_export_button (props b) = true
    /\ is_export_button (props b') = true
    /\ listeners (props b) = [(lit "click", OpenExportMenu id (sourcePath ctx))]
    /\ listeners (props b')
       = [(lit "click", OpenExportMenu id' (sourcePath ctx'))].
Proof.
  intros H w2. subst w2.
  destruct (main_ts_button_added h id ctx w c H)
    as (w1 & p & b & E & _ & _ & Hn & _ & Hb & _ & _ & Hl).
  rewrite E. cbn [snd].
  destruct (main_ts_button_added h id' ctx' w1 _ Hn)
    as (w2 & p' & b' & E' & _ & _ & Hn' & _ & Hb' & _ & _ & Hl').
  rewrite E'. cbn [snd]. cbn [children] in Hn'. rewrite <- app_assoc in Hn'.
  exists p', b, b'. auto.
Qed.

Lemma main_ts_adds_a_button_each_time_witness :
  node_at [] Demo.rendered_container = Some Demo.rendered_container
  /\ exists p b b',
       node_at []
         (doc (snd (main_ts.addExportFunctionality [] Demo.diagram_id Demo.note_ctx
                      (snd (main_ts.addExportFunctionality [] Demo.diagram_id
                              Demo.note_ctx
                              {| mermaidInitialized := true;
                                 doc := Demo.rendered_container;
                                 trace := [] |})))))
       = Some (Elem p (children Demo.rendered_container ++ [b; b']))
       /\ is_export_button (props b) = true
       /\ is_export_button (props b') = true.
Proof.
  split; [reflexivity|].
  destruct (main_ts_adds_a_button_each_time [] Demo.diagram_id Demo.diagram_id
              Demo.note_ctx Demo.note_ctx
              {| mermaidInitialized := true; doc := Demo.rendered_container;
                 trace := [] |} Demo.rendered_container eq_refl)
    as (p & b & b' & Hn & Hb & Hb' & _).
  exists p, b, b'. auto.
Defined.

(** ** Unloading *)

(** Induction on a tree with its children as a list. *)
Lemma Tree_induction (P : Tree -> Prop) :
  (forall p kids, Forall P kids -> P (Elem p kids)) -> forall t, P t.
Proof.
  intros step. fix IH 1. intros [p kids]. apply step.
  induction kids as [|k kids IHk]; constructor; [apply IH | exact IHk].
Qed.

Lemma remove_all_eq (sel : Props -> bool) (p : Props) (kids : list Tree) :
  remove_all sel (Elem p kids) = Elem p (remove_all_among sel kids).
Proof.
  cbn [remove_all]. f_equal.
  induction kids as [|k kids IH]; cbn [remove_all_among]; [reflexivity|].
  now rewrite IH.
Qed.

Lemma count_in_eq (sel : Props -> bool) (p : Props) (kids : list Tree) :
  count_in sel (Elem p kids)
  = ((if sel p then 1 else 0) + count_among sel kids)%nat.
Proof.
  cbn [count_in]. f_equal.
  induction kids as [|k kids IH]; cbn [count_among]; [reflexivity|].
  now rewrite IH.
Qed.

Lemma count_among_app (sel : Props -> bool) (l1 l2 : list Tree) :
  count_among sel (l1 ++ l2) = (count_among sel l1 + count_among sel l2)%nat.
Proof. induction l1 as [|k l1 IH]; simpl; [reflexivity | rewrite IH; lia]. Qed.

(** Nothing that matches is left. *)
Lemma remove_all_among_none (sel : Props -> bool) (ks : list Tree) :
  count_among sel (remove_all_among sel ks) = 0%nat.
Proof.
  induction ks as [|k ks IH]; [reflexivity|]. cbn [remove_all_among].
  destruct (sel (props k)) eqn:Hk; [exact IH|].
  cbn [count_among]. rewrite IH, Nat.add_0_r. clear IH ks. revert Hk.
  induction k as [p kids IHk] using Tree_induction. intros Hk.
  rewrite remove_all_eq, count_in_eq. cbn [props] in Hk. rewrite Hk.
  cbn [Nat.add]. induction IHk as [|k kids Hk' _ IHks]; [reflexivity|].
  cbn [remove_all_among]. destruct (sel (props k)) eqn:E; [exact IHks|].
  cbn [count_among]. now rewrite (Hk' eq_refl), IHks.
Qed.

(** Removal only removes: of no kind of element is there more after. *)
Lemma remove_all_among_le (sel sel' : Props -> bool) (ks : list Tree) :
  (count_among sel (remove_all_among sel' ks) <= count_among sel ks)%nat.
Proof.
  assert (Hin : forall t, (count_in sel (remove_all sel' t) <= count_in sel t)%nat).
  { induction t as [p kids IHk] using Tree_induction.
    rewrite remove_all_eq, !count_in_eq. apply Nat.add_le_mono_l.
    induction IHk as [|k kids Hk _ IHks]; [reflexivity|].
    cbn [remove_all_among count_among].
    destruct (sel' (props k)); cbn [count_among]; lia. }
  induction ks as [|k ks IH]; [reflexivity|].
  cbn [remove_all_among count_among].
  destruct (sel' (props k)); cbn [count_among]; [lia|].
  specialize (Hin k). lia.
Qed.

(** Where nothing matches, nothing changes. *)
Lemma remove_all_among_clean (sel : Props -> bool) (ks : list Tree) :
  count_among sel ks = 0%nat -> remove_all_among sel ks = ks.
Proof.
  assert (Hin : forall t, count_in sel t = 0%nat -> remove_all sel t = t).
  { induction t as [p kids IHk] using Tree_induction.
    rewrite remove_all_eq, count_in_eq. intros H. f_equal.
    assert (Hk : count_among sel kids = 0%nat) by lia. clear H.
    induction IHk as [|k kids Hk' _ IHks]; [reflexivity|].
    cbn [count_among] in Hk. cbn [remove_all_among].
    assert (H0 : count_in sel k = 0%nat) by lia.
    destruct (sel (props k)) eqn:E.
    - destruct k as [q qs]. rewrite count_in_eq in H0. cbn [props] in E.
      rewrite E in H0. discriminate.
    - rewrite (Hk' H0), IHks by lia. reflexivity. }
  induction ks as [|k ks IH]; [reflexivity|].
  cbn [count_among remove_all_among]. intros H.
  assert (H0 : count_in sel k = 0%nat) by lia.
  destruct (sel (props k)) eqn:E.
  - destruct k as [q qs]. rewrite count_in_eq in H0. cbn [props] in E.
    rewrite E in H0. discriminate.
  - rewrite (Hin k H0), IH by lia. reflexivity.
Qed.

(** X7.  [onunload] of [part_000] clears the flag and takes every export
    button and every export menu out of the tree, at whatever depth; it
    makes no call, leaves the output element's own properties alone and
    adds no element of any kind. *)
Theorem part_000_onunload_clears (w : World) :
  exists w',
    part_000.onunload w = (inr tt, w')
    /\ mermaidInitialized w' = false
    /\ count_below is_export_button (doc w') = 0%nat
    /\ count_below is_export_menu (doc w') = 0%nat
    /\ trace w' = trace w
    /\ props (doc w') = props (doc w)
    /\ forall sel, (count_below sel (doc w') <= count_below sel (doc w))%nat.
Proof.
  eexists. split; [reflexivity|]. cbn [doc set_doc set_initialized trace
                                       mermaidInitialized].
  destruct (doc w) as [p kids]. rewrite !remove_all_eq.
  unfold count_below. cbn [children props].
  split; [reflexivity|]. split; [apply remove_all_among_none|].
  split.
  - pose proof (remove_all_among_le is_export_menu
                  (has_class (lit "mermaid-export-btn"))
                  (remove_all_among (has_class (lit "mermaid-export-menu")) kids)) as H.
    pose proof (remove_all_among_none is_export_menu kids) as H0.
    change (has_class (lit "mermaid-export-menu")) with is_export_menu in *.
    lia.
  - split; [reflexivity|]. split; [reflexivity|]. intros sel.
    pose proof (remove_all_among_le sel (has_class (lit "mermaid-export-btn"))
                  (remove_all_among (has_class (lit "mermaid-export-menu")) kids)).
    pose proof (remove_all_among_le sel (has_class (lit "mermaid-export-menu")) kids).
    lia.
Qed.

Lemma remove_all_clean (sel : Props -> bool) (t : Tree) :
  count_in sel t = 0%nat -> remove_all sel t = t.
Proof.
  destruct t as [p kids]. rewrite remove_all_eq, count_in_eq. intros H.
  rewrite remove_all_among_clean; [reflexivity | lia].
Qed.

Lemma count_in_root (sel : Props -> bool) (t : Tree) :
  count_in sel t = 0%nat -> sel (props t) = false /\ count_below sel t = 0%nat.
Proof.
  destruct t as [p kids]. rewrite count_in_eq. unfold count_below.
  cbn [props children]. destruct (sel p); [discriminate | auto].
Qed.

Lemma count_among_nth (sel : Props -> bool) (ks : list Tree) (i : nat) (k : Tree) :
  count_among sel ks = 0%nat -> nth_error ks i = Some k -> count_in sel k = 0%nat.
Proof.
  revert i. induction ks as [|x ks IH]; intros [|i]; cbn; try discriminate.
  - intros H [= <-]. lia.
  - intros H Hn. apply (IH i); [lia | exact Hn].
Qed.

(** Below a clean tree everything is clean. *)
Lemma clean_at (sel : Props -> bool) (h : handle) (t c : Tree) :
  count_below sel t = 0%nat -> node_at h t = Some c ->
  count_below sel c = 0%nat /\ (h <> [] -> sel (props c) = false).
Proof.
  revert t. induction h as [|i h IH]; intros t Ht Hn.
  - injection Hn as <-. split; [exact Ht | intros H; now elim H].
  - cbn [node_at] in Hn. destruct (nth_error (children t) i) as [k|] eqn:Hk;
      [|discriminate].
    pose proof (count_among_nth sel (children t) i k Ht Hk) as Hc.
    destruct (count_in_root sel k Hc) as [Hroot Hbelow].
    destruct (IH k Hbelow Hn) as [H1 H2]. split; [exact H1|]. intros _.
    destruct h as [|j h]; [injection Hn as <-; exact Hroot | apply H2; discriminate].
Qed.

Lemma first_among_clean (sel : Props -> bool) (ks : list Tree) :
  count_among sel ks = 0%nat -> first_among sel ks = None.
Proof.
  assert (Hin : forall t, count_in sel t = 0%nat -> first_match sel t = None).
  { induction t as [p kids IHk] using Tree_induction.
    rewrite count_in_eq. intros H. cbn [first_match].
    destruct (sel p); [discriminate|].
    assert (Hk : count_among sel kids = 0%nat) by lia. clear H.
    induction IHk as [|k kids Hk' _ IHks]; [reflexivity|].
    cbn [count_among] in Hk. rewrite Hk' by lia. apply IHks. lia. }
  induction ks as [|k ks IH]; [reflexivity|]. cbn [count_among first_among].
  intros H. rewrite Hin by lia. apply IH. lia.
Qed.

Lemma update_nth_compose (i : nat) (f g : Tree -> Tree) (l : list Tree) :
  update_nth i f (update_nth i g l) = update_nth i (fun x => f (g x)) l.
Proof.
  revert i. induction l as [|x l IH]; intros [|i]; cbn [update_nth]; try reflexivity.
  now rewrite IH.
Qed.

Lemma update_nth_ext (i : nat) (f g : Tree -> Tree) (l : list Tree) :
  (forall x, f x = g x) -> update_nth i f l = update_nth i g l.
Proof.
  intros H. revert i. induction l as [|x l IH]; intros [|i]; cbn [update_nth];
    try reflexivity; [now rewrite H | now rewrite IH].
Qed.

Lemma update_at_compose (h : handle) (f g : Tree -> Tree) (t : Tree) :
  update_at h f (update_at h g t) = update_at h (fun x => f (g x)) t.
Proof.
  revert t. induction h as [|i h IH]; intros t; [reflexivity|].
  cbn [update_at props children]. f_equal.
  rewrite update_nth_compose. apply update_nth_ext. exact IH.
Qed.

Lemma update_nth_same (i : nat) (f : Tree -> Tree) (l : list Tree) (k : Tree) :
  nth_error l i = Some k -> f k = k -> update_nth i f l = l.
Proof.
  revert i. induction l as [|x l IH]; intros [|i]; cbn; try discriminate.
  - intros [= ->] ->. reflexivity.
  - intros Hn Hf. now rewrite (IH i Hn Hf).
Qed.

Lemma update_at_same (h : handle) (t c : Tree) :
  node_at h t = Some c -> update_at h (fun _ => c) t = t.
Proof.
  revert t. induction h as [|i h IH]; intros t Hn.
  - now injection Hn as ->.
  - cbn [node_at] in Hn. destruct (nth_error (children t) i) as [k|] eqn:Hk;
      [|discriminate].
    cbn [update_at]. rewrite (update_nth_same i _ (children t) k Hk (IH k Hn)).
    now destruct t.
Qed.

(** Removal meets a change made at [h] in a tree that is otherwise clean. *)
Lemma remove_all_update_at (sel : Props -> bool) (F : Tree -> Tree) (c c' : Tree)
  (h : handle) (t : Tree) :
  count_below sel t = 0%nat ->
  node_at h t = Some c ->
  (h <> [] -> sel (props (F c)) = false) ->
  remove_all sel (F c) = c' ->
  remove_all sel (update_at h F t) = update_at h (fun _ => c') t.
Proof.
  revert t. induction h as [|i h IH]; intros t Ht Hn Hroot HF.
  - injection Hn as <-. exact HF.
  - destruct t as [p kids]. unfold count_below in Ht. cbn [children] in Ht.
    cbn [node_at children] in Hn. cbn [update_at props children].
    rewrite remove_all_eq. f_equal.
    assert (Hroot' : sel (props (F c)) = false) by (apply Hroot; discriminate).
    clear Hroot.
    revert i Hn. induction kids as [|k kids IHk]; intros [|i] Hn;
      cbn in Hn; try discriminate; cbn [update_nth remove_all_among].
    + cbn [count_among] in Ht.
      assert (Hk : count_in sel k = 0%nat) by lia.
      destruct (count_in_root sel k Hk) as [Hrk Hbk].
      assert (Hsel : sel (props (update_at h F k)) = false).
      { destruct h as [|j h]; [|exact Hrk].
        injection Hn as <-. exact Hroot'. }
      rewrite Hsel, remove_all_among_clean by lia. f_equal.
      apply (IH k Hbk Hn); [|exact HF].
      intros _. exact Hroot'.
    + cbn [count_among] in Ht.
      assert (Hk : count_in sel k = 0%nat) by lia.
      destruct (count_in_root sel k Hk) as [Hrk _].
      rewrite Hrk, (remove_all_clean sel k Hk). f_equal.
      apply IHk; [lia | exact Hn].
Qed.

Lemma remove_all_among_last (sel : Props -> bool) (ks : list Tree) (b : Tree) :
  count_among sel ks = 0%nat -> sel (props b) = true ->
  remove_all_among sel (ks ++ [b]) = ks.
Proof.
  intros Hk Hb. induction ks as [|k ks IH]; cbn [app remove_all_among].
  - now rewrite Hb.
  - cbn [count_among] in Hk.
    assert (H0 : count_in sel k = 0%nat) by lia.
    destruct (count_in_root sel k H0) as [Hr _].
    rewrite Hr, (remove_all_clean sel k H0), IH by lia. reflexivity.
Qed.

(** X8.  Unloading takes back what [addExportFunctionality] of [part_000]
    added: in a tree that holds no export button and no export menu,
    adding the button to any element and then unloading gives the tree
    back exactly as it was. *)
Theorem part_000_unload_undoes_button (h : handle) (id : jsstring)
  (ctx : Context) (w : World) (c : Tree) :
  node_at h (doc w) = Some c ->
  count_below is_export_button (doc w) = 0%nat ->
  count_below is_export_menu (doc w) = 0%nat ->
  doc (snd (part_000.onunload
              (snd (part_000.addExportFunctionality h id ctx w))))
  = doc w.
Proof.
  intros Hn Hb Hm.
  destruct (clean_at is_export_button h (doc w) c Hb Hn) as [Hcb Hrb].
  destruct (clean_at is_export_menu h (doc w) c Hm Hn) as [Hcm Hrm].
  unfold part_000.addExportFunctionality, bind, query_at. rewrite Hn.
  change (querySelector (has_class (lit "mermaid-export-btn")) c)
    with (first_among is_export_button (children c)).
  rewrite (first_among_clean is_export_button (children c) Hcb).
  unfold createEl. rewrite Hn.
  cbn [snd fst modify_at modify_doc doc set_doc part_000.onunload bind
       put_initialized set_initialized].
  rewrite !update_at_app, !update_at_compose.
  set (F := fun x : Tree => update_at _ _ (update_at _ _ (appendChild _ x))).
  assert (HF : exists b,
             F c = Elem (props c) (children c ++ [b])
             /\ is_export_button (props b) = true
             /\ count_in is_export_menu b = 0%nat).
  { subst F. cbv beta. in_tree. rewrite !update_nth_snoc. in_tree.
    eexists. split; [reflexivity|]. split; [reflexivity|].
    vm_compute. reflexivity. }
  destruct HF as (b & HF & Hbb & Hbm).
  change (has_class (lit "mermaid-export-menu")) with is_export_menu.
  change (has_class (lit "mermaid-export-btn")) with is_export_button.
  rewrite (remove_all_update_at is_export_menu F c (F c) h (doc w) Hm Hn).
  - rewrite (remove_all_update_at is_export_button (fun _ => F c) c c h
               (doc w) Hb Hn).
    + apply update_at_same, Hn.
    + rewrite HF. exact Hrb.
    + rewrite HF, remove_all_eq, (remove_all_among_last _ _ _ Hcb Hbb).
      now destruct c.
  - rewrite HF. exact Hrm.
  - rewrite HF, remove_all_eq, remove_all_among_clean; [reflexivity|].
    rewrite count_among_app. unfold count_below in Hcm. cbn [count_among]. lia.
Qed.

Lemma part_000_unload_undoes_button_witness :
  node_at [0%nat] (appendChild (Elem (props empty_container) [Demo.svg_tree])
                     Demo.output_element)
  = Some (Elem (props empty_container) [Demo.svg_tree])
  /\ doc (snd (part_000.onunload
                 (snd (part_000.addExportFunctionality [0%nat] Demo.diagram_id
                         Demo.note_ctx
                         {| mermaidInitialized := true;
                            doc := appendChild
                                     (Elem (props empty_container) [Demo.svg_tree])
                                     Demo.output_element;
                            trace := [] |}))))
     = appendChild (Elem (props empty_container) [Demo.svg_tree])
         Demo.output_element.
Proof.
  split; [reflexivity|].
  apply (part_000_unload_undoes_button [0%nat] Demo.diagram_id Demo.note_ctx
           {| mermaidInitialized := true;
              doc := appendChild (Elem (props empty_container) [Demo.svg_tree])
                       Demo.output_element;
              trace := [] |}
           (Elem (props empty_container) [Demo.svg_tree]));
    vm_compute; reflexivity.
Defined.

(** X9.  Unloading and the flag.  In [part_000] the flag is cleared, so
    that the next [initializeMermaid] configures the library again, even
    though it had been configured before; in [main.ts] [onunload] leaves
    the flag, and a later [initializeMermaid] on the same instance does
    nothing. *)
Theorem unload_then_initialize (env : Env) (w : World) :
  mermaidInitialized w = true ->
  (let w1 := snd (part_000.onunload w) in
   mermaidInitialized w1 = false
   /\ trace (snd (part_000.initializeMermaid env w1))
      = trace w ++ [mermaid_initialize part_000.config]
   /\ (initialize_outcome env (trace w) part_000.config = None ->
       mermaidInitialized (snd (part_000.initializeMermaid env w1)) = true))
  /\ (let w1 := snd (main_ts.onunload w) in
      w1 = w /\ main_ts.initializeMermaid env w1 = (inr tt, w)).
Proof.
  intros H. split.
  - cbn zeta. split; [reflexivity|].
    set (w1 := snd (part_000.onunload w)).
    assert (H1 : mermaidInitialized w1 = false) by reflexivity.
    assert (Ht : trace w1 = trace w) by reflexivity.
    destruct (initialize_outcome env (trace w1) part_000.config) as [e|] eqn:Ho.
    + pose proof (initialize_fails Part000 env w1 e H1 Ho) as E.
      unfold initializeMermaid_of, config_of in E.
      rewrite E. cbn [snd log trace]. rewrite Ht in *. split; [reflexivity|].
      rewrite Ho. discriminate.
    + pose proof (initialize_succeeds Part000 env w1 H1 Ho) as E.
      unfold initializeMermaid_of, config_of in E.
      rewrite E. cbn [snd log trace set_initialized mermaidInitialized].
      rewrite Ht. auto.
  - cbn zeta. split; [reflexivity|].
    exact (initialize_when_ready MainTs env w H).
Qed.

Lemma unload_then_initialize_witness :
  mermaidInitialized Demo.ready = true
  /\ trace (snd (part_000.initializeMermaid Demo.env_ok
                   (snd (part_000.onunload Demo.ready))))
     = trace Demo.ready ++ [mermaid_initialize part_000.config].
Proof.
  split; [reflexivity|].
  exact (proj1 (proj2 (proj1 (unload_then_initialize Demo.env_ok Demo.ready
                                eq_refl)))).
Defined.

(** ** How an export ends *)



(** ** Where the file goes, and how big the image is *)







Lemma parse_digits_onto (u : Decimal.uint) (acc : positive) (rest : jsstring) :
  parse_digits 10 (Npos acc) true (digits_of_uint u ++ rest)
  = parse_digits 10 (Npos (Pos.of_uint_acc u acc)) true rest.
Proof.
  revert acc. induction u; intros acc; cbn [digits_of_uint app Pos.of_uint_acc];
    [reflexivity | ..];
    cbn [parse_digits]; unfold digit_val; cbn [N.leb N.ltb N.compare Pos.compare
      Pos.compare_cont andb N.sub Pos.sub_mask Pos.succ_double_mask
      Pos.double_mask Pos.pred_double Pos.double_pred_mask];
    rewrite <- IHu; f_equal; lia.
Qed.

Lemma parse_digits_from_zero (u : Decimal.uint) (rest : jsstring) :
  parse_digits 10 0 true (digits_of_uint u ++ rest)
  = parse_digits 10 (Pos.of_uint u) true rest.
Proof.
  induction u; cbn [digits_of_uint app Pos.of_uint]; [reflexivity | ..];
    cbn [parse_digits]; unfold digit_val; cbn [N.leb N.ltb N.compare Pos.compare
      Pos.compare_cont andb N.sub Pos.sub_mask Pos.succ_double_mask
      Pos.double_mask Pos.pred_double Pos.double_pred_mask N.mul N.add];
    first [exact IHu | apply parse_digits_onto].
Qed.

(** What may follow the digits for [parseInt] to stop there: nothing, or
    a character that is no decimal digit and does not spell a hexadecimal
    prefix. *)
Lemma parseInt_of_digits (u : Decimal.uint) (rest : jsstring) :
  u <> Decimal.Nil ->
  (rest = []
   \/ exists c r, rest = c :: r /\ digit_val 10 c = None
                  /\ c <> 120%N /\ c <> 88%N) ->
  parseInt (digits_of_uint u ++ rest) = Some (Z.of_N (Pos.of_uint u)).
Proof.
  intros Hu Hrest.
  assert (Hstop : forall n, parse_digits 10 n true rest = Some n).
  { intros n. destruct Hrest as [-> | (c & r & -> & Hc & _)]; [reflexivity|].
    cbn [parse_digits]. now rewrite Hc. }
  assert (Hhex : forall r0, rest = r0 ->
            match r0 with
            | x :: _ => ((x =? 120) || (x =? 88))%N = false
            | [] => True
            end).
  { intros r0 <-. destruct Hrest as [-> | (c & r & -> & _ & H1 & H2)]; [exact I|].
    apply orb_false_iff. split; now apply N.eqb_neq. }
  assert (Hgo : parse_digits 10 0 false (digits_of_uint u ++ rest)
                = Some (Pos.of_uint u)).
  { rewrite <- Hstop, <- parse_digits_from_zero.
    destruct u; [now elim Hu | ..]; reflexivity. }
  unfold parseInt.
  destruct u as [|u|u|u|u|u|u|u|u|u|u]; [now elim Hu | ..];
    cbn [digits_of_uint app trimStart isWhiteSpace N.eqb Pos.eqb N.leb N.compare
         Pos.compare Pos.compare_cont orb andb] in *;
    try (destruct (digits_of_uint u ++ rest); rewrite Hgo; reflexivity).
  (* a leading zero: the next character decides about a hexadecimal prefix *)
  destruct u; cbn [digits_of_uint app N.eqb Pos.eqb orb andb] in *;
    try (rewrite Hgo; reflexivity).
  specialize (Hhex rest eq_refl). destruct rest as [|x r].
  - rewrite Hgo. reflexivity.
  - rewrite Hhex, Hgo. reflexivity.
Qed.

(** X13.  The size the browser reports is the size of the image.  When
    the computed width and height of the visual are [n] and [m] pixels,
    written with or without a fractional part, neither zero, and twice
    each fits a canvas (at most 2^31 - 1, where all the numbers involved
    are exact), a raster export that gets as far as the write hands the
    vault an image exactly [2 n] wide and [2 m] high, whatever the client
    size of the visual. *)
Theorem computed_pixels_are_read_back (env : Env) (container : Tree)
  (id : jsstring) (ctx : Context) (w : World) (svg : Tree) (encoded : jsstring)
  (img : Z -> Z -> Z -> Z -> Color) (n m : N) (after_n after_m : jsstring) :
  querySelector (has_tag (lit "svg")) container = Some svg ->
  has_2d_context env = true ->
  encodeURIComponent env (serializeToString env svg) = inr encoded ->
  image_decode env (svg_data_uri encoded) = Some img ->
  (forall b, toBlob_succeeds env b = true) ->
  computed_width env svg = number_toString n ++ after_n ->
  computed_height env svg = number_toString m ++ after_m ->
  (after_n = lit "px" \/ exists frac, after_n = lit "." ++ frac ++ lit "px") ->
  (after_m = lit "px" \/ exists frac, after_m = lit "." ++ frac ++ lit "px") ->
  (0 < n)%N -> (2 * n <= 2147483647)%N ->
  (0 < m)%N -> (2 * m <= 2147483647)%N ->
  exists path bmp rest,
    trace (snd (Exporter.exportAsPNG env container id ctx w))
    = trace w ++ vault_createBinary path bmp :: rest
    /\ bwidth bmp = (2 * Z.of_N n)%Z
    /\ bheight bmp = (2 * Z.of_N m)%Z.
Proof.
  intros Hq Hc He Hi Hb Hw Hh Hsw Hsh Hn _ Hm _.
  assert (Hread : forall k sfx,
            (sfx = lit "px" \/ exists frac, sfx = lit "." ++ frac ++ lit "px") ->
            parseInt (number_toString k ++ sfx) = Some (Z.of_N k)).
  { intros k sfx Hs. unfold number_toString.
    rewrite parseInt_of_digits, DecimalN.Unsigned.of_to; [reflexivity | |].
    - destruct k; [discriminate | apply DecimalPos.Unsigned.to_uint_nonnil].
    - right. destruct Hs as [-> | [frac ->]].
      + exists 112%N, [120%N]. repeat split; discriminate.
      + exists 46%N, (frac ++ lit "px"). repeat split; discriminate. }
  assert (Hsize : forall k sfx client dflt,
            (0 < k)%N ->
            (sfx = lit "px" \/ exists frac, sfx = lit "." ++ frac ++ lit "px") ->
            chosen_size (number_toString k ++ sfx) client dflt = Z.of_N k).
  { intros k sfx client dflt Hk Hs. rewrite chosen_size_cases, (Hread k sfx Hs).
    assert (E : (Z.of_N k =? 0)%Z = false) by (apply Z.eqb_neq; lia).
    now rewrite E. }
  destruct (exportAsPNG_writes env container id ctx w svg encoded img
              Hq Hc He Hi Hb) as (bmp & rest & E & Hbw & Hbh & _).
  rewrite Hw, (Hsize n after_n _ _ Hn Hsw) in Hbw.
  rewrite Hh, (Hsize m after_m _ _ Hm Hsh) in Hbh.
  eexists. exists bmp, rest. split; [exact E|]. split; assumption.
Qed.

Lemma computed_pixels_are_read_back_witness :
  computed_width Demo.env_ok Demo.svg_tree = number_toString 400 ++ lit "px"
  /\ computed_height Demo.env_ok Demo.svg_tree = number_toString 300 ++ lit "px"
  /\ (2 * 400 <= 2147483647)%N
  /\ exists path bmp rest,
       trace (snd (Exporter.exportAsPNG Demo.env_ok Demo.rendered_container
                     Demo.diagram_id Demo.note_ctx Demo.ready))
       = trace Demo.ready ++ vault_createBinary path bmp :: rest
       /\ bwidth bmp = (2 * Z.of_N 400)%Z
       /\ bheight bmp = (2 * Z.of_N 300)%Z.
Proof.
  split; [vm_compute; reflexivity|]. split; [vm_compute; reflexivity|].
  split; [vm_compute; discriminate|].
  apply (computed_pixels_are_read_back Demo.env_ok Demo.rendered_container
           Demo.diagram_id Demo.note_ctx Demo.ready Demo.svg_tree
           (Demo.serialize Demo.svg_tree) (fun _ _ _ _ => transparent)
           400 300 (lit "px") (lit "px"));
    try (vm_compute; reflexivity); try (left; reflexivity);
    try (vm_compute; discriminate).
Defined.

(** ** The text the library sees *)

Lemma trimStart_head (s : jsstring) (c : N) (r : jsstring) :
  trimStart s = c :: r -> isWhiteSpace c = false.
Proof.
  induction s as [|x s IH]; cbn [trimStart]; [discriminate|].
  destruct (isWhiteSpace x) eqn:Hx; [exact IH|]. now intros [= <- _].
Qed.

Lemma trimStart_fixed (s : jsstring) :
  match s with c :: _ => isWhiteSpace c = false | [] => True end ->
  trimStart s = s.
Proof. destruct s as [|c s]; [reflexivity|]. cbn [trimStart]. now intros ->. Qed.

Lemma trimStart_idempotent (s : jsstring) : trimStart (trimStart s) = trimStart s.
Proof.
  apply trimStart_fixed. destruct (trimStart s) as [|c r] eqn:E; [exact I|].
  exact (trimStart_head s c r E).
Qed.

Lemma trimStart_snoc (l : jsstring) (c : N) :
  isWhiteSpace c = false -> trimStart (l ++ [c]) = trimStart l ++ [c].
Proof.
  intros Hc. induction l as [|x l IH]; cbn [app trimStart].
  - now rewrite Hc.
  - destruct (isWhiteSpace x); [exact IH | reflexivity].
Qed.

Lemma trimEnd_cons (c : N) (r : jsstring) :
  isWhiteSpace c = false -> trimEnd (c :: r) = c :: trimEnd r.
Proof.
  intros Hc. unfold trimEnd. cbn [rev].
  now rewrite (trimStart_snoc _ c Hc), rev_app_distr.
Qed.

(** What [trim] returns has no whitespace at either end, and trimming it
    again changes nothing. *)
Lemma trim_ends (s : jsstring) :
  trim (trim s) = trim s
  /\ (forall c r, trim s = c :: r -> isWhiteSpace c = false)
  /\ (forall c r, trim s = r ++ [c] -> isWhiteSpace c = false).
Proof.
  unfold trim. set (t := trimStart s).
  assert (Hhead : forall c r, trimEnd t = c :: r -> isWhiteSpace c = false).
  { intros c r. destruct t as [|x t'] eqn:Et; [discriminate|].
    pose proof (trimStart_head s x t' Et) as Hx.
    rewrite (trimEnd_cons x t' Hx). now intros [= <- _]. }
  assert (Hlast : forall c r, trimEnd t = r ++ [c] -> isWhiteSpace c = false).
  { intros c r H. unfold trimEnd in H.
    apply (f_equal (@rev N)) in H. rewrite rev_involutive, rev_app_distr in H.
    exact (trimStart_head _ _ _ H). }
  split; [|split; assumption].
  rewrite (trimStart_fixed (trimEnd t)).
  - unfold trimEnd. now rewrite rev_involutive, trimStart_idempotent.
  - destruct (trimEnd t) as [|c r] eqn:E; [exact I | exact (Hhead c r eq_refl)].
Qed.

(** X14.  What the handler passes to the library is clean text: every
    text given to [mermaid.parse] or [mermaid.render] in a render attempt
    is the trimmed source, is not empty, begins and ends with a character
    that is not whitespace, and would not change if trimmed again. *)
Theorem library_sees_trimmed_text (rev : Revision) (env : Env)
  (source : jsstring) (ctx : Context) (w : World) :
  exists calls w',
    renderMermaid_of rev env source el ctx w = (inr tt, w')
    /\ trace w' = trace w ++ calls
    /\ forall text,
         (In (mermaid_parse text) calls
          \/ exists id, In (mermaid_render id text) calls) ->
         text = trim source
         /\ text <> []
         /\ trim text = text
         /\ (forall c r, text = c :: r -> isWhiteSpace c = false)
         /\ (forall c r, text = r ++ [c] -> isWhiteSpace c = false).
Proof.
  destruct (trim_ends source) as (Hidem & Hhead & Hlast).
  assert (Hclean : truthy (trim source) = true ->
            trim source = trim source /\ trim source <> []
            /\ trim (trim source) = trim source
            /\ (forall c r, trim source = c :: r -> isWhiteSpace c = false)
            /\ (forall c r, trim source = r ++ [c] -> isWhiteSpace c = false)).
  { intros Ht. repeat split; try assumption.
    intros E. rewrite E in Ht. discriminate. }
  destruct (render_split rev env source ctx w)
    as [(e & _ & _ & E) | (pre & Hpre & E)].
  - exists [mermaid_initialize (config_of rev env)]. eexists.
    split; [exact E|]. split; [reflexivity|].
    intros text [[H|[]] | [id [H|[]]]]; discriminate.
  - set (w0 := {| mermaidInitialized := true; doc := doc w;
                  trace := trace w ++ pre |}) in *.
    destruct (render_try_outcome rev env source ctx w0)
      as (r & c & calls & Et & _ & _ & Hcases).
    assert (Ecaught :
              exists w', try_catch (render_try_of rev env source el ctx)
                           (show_error source el) w0 = (inr tt, w')
                         /\ trace w' = trace w ++ pre ++ calls).
    { unfold try_catch. rewrite Et. destruct r as [e|[]].
      - rewrite show_error_appends. eexists. split; [reflexivity|].
        cbn. now rewrite app_assoc.
      - eexists. split; [reflexivity|]. cbn. now rewrite app_assoc. }
    destruct Ecaught as (w' & Ec & Htr). rewrite Ec in E.
    exists (pre ++ calls), w'. split; [exact E|]. split; [exact Htr|].
    assert (Hin : forall text,
              In (mermaid_parse text) (pre ++ calls)
              \/ (exists id, In (mermaid_render id text) (pre ++ calls)) ->
              text = trim source /\ truthy (trim source) = true).
    { intros text Hin.
      assert (Hc : In (mermaid_parse text) calls
                   \/ exists id, In (mermaid_render id text) calls).
      { assert (Hno : forall x, In x pre -> is_mermaid_initialize x = true).
        { intros x Hx. destruct Hpre as [[-> _] | [-> _]]; [destruct Hx|].
          destruct Hx as [<-|[]]. reflexivity. }
        destruct Hin as [H | [id H]]; apply in_app_or in H as [H|H]; eauto;
          apply Hno in H; discriminate. }
      clear Hin.
      destruct Hcases as [(-> & _) | [(-> & Ht & _) | (-> & Ht & _)]].
      - destruct Hc as [[] | [id []]].
      - destruct Hc as [[H|[]] | [id [H|[]]]]; [|discriminate].
        injection H as <-. auto.
      - destruct Hc as [[H|[H|[]]] | [id [H|[H|[]]]]]; try discriminate.
        + injection H as <-. auto.
        + injection H as _ <-. auto. }
    intros text Htext. destruct (Hin text Htext) as [-> Ht]. now apply Hclean.
Qed.

(** ** The two revisions side by side *)

(** X15.  [part_000] is at least as strict as [main.ts], and as talkative:
    on the same state the two attempts make the same calls to the
    library, and whenever the attempt of [main.ts] fails, that of
    [part_000] fails with the same error and leaves the same state. *)
Theorem revisions_agree_on_failures (env : Env) (source : jsstring)
  (ctx : Context) (w : World) :
  trace (snd (main_ts.render_try env source el ctx w))
  = trace (snd (part_000.render_try env source el ctx w))
  /\ forall e w1,
       main_ts.render_try env source el ctx w = (inl e, w1) ->
       part_000.render_try env source el ctx w = (inl e, w1).
Proof.
  destruct (render_try_outcome MainTs env source ctx w)
    as (r & c & calls & E & _ & Hc & Hcases).
  destruct (render_try_outcome Part000 env source ctx w)
    as (r' & c' & calls' & E' & _ & Hc' & Hcases').
  cbn [render_try_of] in E, E'. rewrite E, E'. cbn [snd trace].
  assert (Hsame : calls = calls'
                  /\ (forall e, r = inl e -> r' = inl e)).
  { destruct Hcases as [(-> & Ht & ->) | [(-> & Ht & Hp) | (-> & Ht & Hp & Hr)]];
      destruct Hcases'
        as [(-> & Ht' & ->) | [(-> & Ht' & Hp') | (-> & Ht' & Hp' & Hr')]];
      try congruence.
    - split; [reflexivity|]. now intros e [= <-].
    - split; [reflexivity|]. intros e ->.
      destruct Hp as [(e1 & Hp & He) | (Hp & He)];
        destruct Hp' as [(e2 & Hp' & ->) | (Hp' & ->)]; congruence.
    - destruct Hp as [(e1 & Hp & _) | (Hp & _)]; congruence.
    - destruct Hp' as [(e1 & Hp' & _) | (Hp' & _)]; congruence.
    - split; [reflexivity|]. intros e ->.
      destruct Hr as [(e1 & Hr & He) | (m & Hr & [He | (Hrev & _)])];
        [|discriminate|discriminate].
      destruct Hr' as [(e2 & Hr' & ->) | (m & Hr' & _)]; congruence. }
  destruct Hsame as [<- Hr]. split; [reflexivity|].
  intros e w1 [= -> <-]. rewrite (Hr e eq_refl).
  rewrite (Hc ltac:(discriminate)), (Hc' ltac:(rewrite (Hr e eq_refl); discriminate)).
  reflexivity.
Qed.

(** ** From the block to the file *)

Lemma svg_first_in_container (p : Props) (svg : Tree) (rest : list Tree) :
  has_tag (lit "svg") (props svg) = true ->
  querySelector (has_tag (lit "svg")) (Elem p (svg :: rest)) = Some svg.
Proof.
  intros H. unfold querySelector. cbn [children first_among].
  destruct svg as [q kids]. cbn [first_match props] in *. now rewrite H.
Qed.

(** X16.  Rendering a block and then exporting its container as SVG
    writes the visual that was rendered: in [part_000] the file holds the
    serialization of the very element parsed from the library's markup;
    in [main.ts] it holds that of the element with the two inline styles
    the handler has put on it ([max-width] and [height]). *)
Theorem export_writes_what_was_rendered (env : Env) (source : jsstring)
  (ctx ctx' : Context) (id' : jsstring) (w : World) (markup : jsstring) :
  mermaidInitialized w = true ->
  truthy (trim source) = true ->
  parse_outcome env (trace w) (trim source) = inr true ->
  render_outcome env (trace w ++ [mermaid_parse (trim source)])
    (fresh_id env (trace w)) (trim source) = inr markup ->
  (has_tag (lit "svg") (props (parseFromString env markup)) = true ->
   exists c w1 path msg,
     part_000.renderMermaid env source el ctx w = (inr tt, w1)
     /\ children (doc w1) = children (doc w) ++ [c]
     /\ trace (snd (Exporter.exportAsSVG env c id' ctx' w1))
        = trace w1
          ++ [vault_create path
                (svg_document env (parseFromString env markup));
              Notice msg])
  /\ (forall t,
        innerHTML_parse env markup = [t] ->
        has_tag (lit "svg") (props t) = true ->
        exists c w1 path msg,
          main_ts.renderMermaid env source el ctx w = (inr tt, w1)
          /\ children (doc w1) = children (doc w) ++ [c]
          /\ trace (snd (Exporter.exportAsSVG env c id' ctx' w1))
             = trace w1
               ++ [vault_create path
                     (svg_document env (map_props main_ts.responsive t));
                   Notice msg]).
Proof.
  intros Hready Ht Hp Hr. split.
  - intros Hs.
    destruct (part_000_render_try_succeeds env source ctx w markup Ht Hp Hr Hs)
      as (rest & w1 & E & Hd & _ & _).
    pose proof (render_when_ready Part000 env source ctx w Hready) as Er.
    cbn [renderMermaid_of render_try_of] in Er. unfold try_catch in Er.
    rewrite E in Er.
    exists (Elem (props empty_container) (parseFromString env markup :: rest)), w1.
    eexists. eexists. split; [exact Er|]. split; [now rewrite Hd|].
    rewrite (exportAsSVG_with_svg env _ id' ctx' w1 _
               (svg_first_in_container _ _ _ Hs)).
    unfold log. cbn [snd trace]. rewrite <- app_assoc. reflexivity.
  - intros t Hi Hs.
    destruct (main_ts_render_try_succeeds env source ctx w markup t Ht Hp Hr Hi Hs)
      as (p & btn & w1 & E & Hd & _ & _ & _).
    pose proof (render_when_ready MainTs env source ctx w Hready) as Er.
    cbn [renderMermaid_of render_try_of] in Er. unfold try_catch in Er.
    rewrite E in Er.
    exists (Elem p [map_props main_ts.responsive t; btn]), w1.
    eexists. eexists. split; [exact Er|]. split; [now rewrite Hd|].
    assert (Hs' : has_tag (lit "svg") (props (map_props main_ts.responsive t))
                  = true) by (destruct t; exact Hs).
    rewrite (exportAsSVG_with_svg env _ id' ctx' w1 _
               (svg_first_in_container _ _ _ Hs')).
    unfold log. cbn [snd trace]. rewrite <- app_assoc. reflexivity.
Qed.

Lemma export_writes_what_was_rendered_witness :
  mermaidInitialized Demo.ready = true
  /\ has_tag (lit "svg") (props (parseFromString Demo.env_ok Demo.markup)) = true
  /\ exists c w1 path msg,
       part_000.renderMermaid Demo.env_ok Demo.good_source el Demo.note_ctx
         Demo.ready = (inr tt, w1)
       /\ children (doc w1) = children (doc Demo.ready) ++ [c]
       /\ trace (snd (Exporter.exportAsSVG Demo.env_ok c Demo.diagram_id
                        Demo.note_ctx w1))
          = trace w1
            ++ [vault_create path
                  (svg_document Demo.env_ok
                     (parseFromString Demo.env_ok Demo.markup));
                Notice msg].
Proof.
  split; [reflexivity|]. split; [vm_compute; reflexivity|].
  apply (proj1 (export_writes_what_was_rendered Demo.env_ok Demo.good_source
                  Demo.note_ctx Demo.note_ctx Demo.diagram_id Demo.ready
                  Demo.markup eq_refl
                  ltac:(vm_compute; reflexivity)
                  ltac:(vm_compute; reflexivity)
                  ltac:(vm_compute; reflexivity))).
  vm_compute. reflexivity.
Defined.
